(** * Brief VM (src/src/Brief.cpp): a shallow embedding of the interpreter core

    The VM state is a record of the C globals.  The dictionary [memory], the
    data stack [dstack] and the return stack [rstack] are modelled as flat
    maps from an index to a value, so that an index outside the C array
    (a store at a negative address, a push one past the top) is an ordinary
    write that the theorems can observe.  The stack pointers [s] and [r] are
    the index of the top element: [dstack - 1] is [-1].

    Effects are threaded through a small state-and-failure monad; [None]
    stands for a run that leaves the model: fuel exhausted (unbounded
    recursion of [error] or a non-terminating [run]), a blocking serial read,
    or an instruction [step] does not dispatch (the platform adapters 49..57
    are modelled on their own, in [board_instructions]).

    C leaves the order of evaluation of function arguments unspecified; the
    model evaluates them left to right.  [pop] and [rpop] fall off their end
    on underflow: the value they return is the section variable [undef]. *)

From Stdlib Require Import ZArith Lia List Bool.
Import ListNotations.
Open Scope Z_scope.

(** ** Brief.h *)

Definition MEM_SIZE : Z := 512.
Definition DATA_STACK_SIZE : Z := 4.
Definition RETURN_STACK_SIZE : Z := 4.
Definition BOOT_EVENT_ID : Z := 255.
Definition VM_EVENT_ID : Z := 254.
Definition VM_ERROR_RETURN_STACK_UNDERFLOW : Z := 0.
Definition VM_ERROR_RETURN_STACK_OVERFLOW : Z := 1.
Definition VM_ERROR_DATA_STACK_UNDERFLOW : Z := 2.
Definition VM_ERROR_DATA_STACK_OVERFLOW : Z := 3.
Definition VM_ERROR_OUT_OF_MEMORY : Z := 4.

(** ** C integer conversions *)

(** conversion to [int16_t] (two's complement wrap) *)
Definition i16 (z : Z) : Z := (z + 32768) mod 65536 - 32768.
(** conversion to [int8_t] *)
Definition i8 (z : Z) : Z := (z + 128) mod 256 - 128.
(** conversion to [uint8_t] / [byte] *)
Definition u8 (z : Z) : Z := z mod 256.

(** point update of a flat map *)
Definition upd (f : Z -> Z) (a v : Z) : Z -> Z :=
  fun x => if Z.eqb x a then v else f x.

(** ** Globals *)

Record St := mkSt {
  memory : Z -> Z;
  dstack : Z -> Z;
  s : Z;
  rstack : Z -> Z;
  r : Z;
  p : Z;
  here : Z;
  last : Z;
  eventBuffer : Z;
  loopword : Z;
  loopIterations : Z;
  serial_out : list Z
}.

Definition set_memory f st := mkSt f (dstack st) (s st) (rstack st) (r st) (p st)
  (here st) (last st) (eventBuffer st) (loopword st) (loopIterations st) (serial_out st).
Definition set_dstack f st := mkSt (memory st) f (s st) (rstack st) (r st) (p st)
  (here st) (last st) (eventBuffer st) (loopword st) (loopIterations st) (serial_out st).
Definition set_s v st := mkSt (memory st) (dstack st) v (rstack st) (r st) (p st)
  (here st) (last st) (eventBuffer st) (loopword st) (loopIterations st) (serial_out st).
Definition set_rstack f st := mkSt (memory st) (dstack st) (s st) f (r st) (p st)
  (here st) (last st) (eventBuffer st) (loopword st) (loopIterations st) (serial_out st).
Definition set_r v st := mkSt (memory st) (dstack st) (s st) (rstack st) v (p st)
  (here st) (last st) (eventBuffer st) (loopword st) (loopIterations st) (serial_out st).
Definition set_p v st := mkSt (memory st) (dstack st) (s st) (rstack st) (r st) v
  (here st) (last st) (eventBuffer st) (loopword st) (loopIterations st) (serial_out st).
Definition set_here v st := mkSt (memory st) (dstack st) (s st) (rstack st) (r st) (p st)
  v (last st) (eventBuffer st) (loopword st) (loopIterations st) (serial_out st).
Definition set_last v st := mkSt (memory st) (dstack st) (s st) (rstack st) (r st) (p st)
  (here st) v (eventBuffer st) (loopword st) (loopIterations st) (serial_out st).
Definition set_eventBuffer v st := mkSt (memory st) (dstack st) (s st) (rstack st) (r st)
  (p st) (here st) (last st) v (loopword st) (loopIterations st) (serial_out st).
Definition set_loopword v st := mkSt (memory st) (dstack st) (s st) (rstack st) (r st)
  (p st) (here st) (last st) (eventBuffer st) v (loopIterations st) (serial_out st).
Definition set_loopIterations v st := mkSt (memory st) (dstack st) (s st) (rstack st)
  (r st) (p st) (here st) (last st) (eventBuffer st) (loopword st) v (serial_out st).
Definition set_serial_out v st := mkSt (memory st) (dstack st) (s st) (rstack st) (r st)
  (p st) (here st) (last st) (eventBuffer st) (loopword st) (loopIterations st) v.

(** ** The VM monad *)

Definition M (A : Type) : Type := St -> option (A * St).

Definition mret {A} (a : A) : M A := fun st => Some (a, st).
Definition mbind {A B} (m : M A) (k : A -> M B) : M B :=
  fun st => match m st with Some (a, st') => k a st' | None => None end.
Definition mfail {A} : M A := fun _ => None.
Definition gets {A} (f : St -> A) : M A := fun st => Some (f st, st).
Definition modify (f : St -> St) : M unit := fun st => Some (tt, f st).

Notation "x <- m ;; k" := (mbind m (fun x => k))
  (at level 61, m at next level, right associativity).
Notation "m ;; k" := (mbind m (fun _ => k)) (at level 61, right associativity).

(** [Serial.write(b)] *)
Definition serial_write (b : Z) : M unit :=
  modify (fun st => set_serial_out (serial_out st ++ [u8 b]) st).

Section VM.

(** value returned by [pop]/[rpop] when they fall off their end *)
Variable undef : Z.

(** The error reporter is a parameter of every checked operation; [error]
    below ties the knot with fuel. *)
Variable err : Z -> M unit.

(** [memget]: fetch with bounds checking *)
Definition memget_ (address : Z) : M Z :=
  if (address <? 0) || (address >=? MEM_SIZE)
  then err VM_ERROR_OUT_OF_MEMORY ;; mret 0
  else gets (fun st => memory st address).

(** [memset]: store with bounds checking (only the upper bound is tested) *)
Definition memset_ (address value : Z) : M unit :=
  if address >=? MEM_SIZE
  then err VM_ERROR_OUT_OF_MEMORY
  else modify (fun st => set_memory (upd (memory st) address (u8 value)) st).

Definition push_ (x : Z) : M unit :=
  fun st =>
    if s st >=? DATA_STACK_SIZE
    then err VM_ERROR_DATA_STACK_OVERFLOW st
    else Some (tt, set_dstack (upd (dstack st) (s st + 1) (i16 x)) (set_s (s st + 1) st)).

Definition pop_ : M Z :=
  fun st =>
    if s st <? 0
    then (err VM_ERROR_DATA_STACK_UNDERFLOW ;; mret undef) st
    else Some (dstack st (s st), set_s (s st - 1) st).

Definition rpush_ (x : Z) : M unit :=
  fun st =>
    if r st >=? RETURN_STACK_SIZE
    then err VM_ERROR_RETURN_STACK_OVERFLOW st
    else Some (tt, set_rstack (upd (rstack st) (r st + 1) (i16 x)) (set_r (r st + 1) st)).

Definition rpop_ : M Z :=
  fun st =>
    if r st <? 0
    then (err VM_ERROR_RETURN_STACK_UNDERFLOW ;; mret undef) st
    else Some (rstack st (r st), set_r (r st - 1) st).

(** [eventBuffer++]: yields the old cursor *)
Definition eventBuffer_pp : M Z :=
  fun st => Some (eventBuffer st, set_eventBuffer (i16 (eventBuffer st + 1)) st).

Definition eventHeader_ : M unit :=
  modify (fun st => set_eventBuffer (here st) st) ;;
  a <- eventBuffer_pp ;; v <- pop_ ;; memset_ a v.

Definition eventBody8_ : M unit :=
  a <- eventBuffer_pp ;; v <- pop_ ;; memset_ a v.

Definition eventBody16_ : M unit :=
  val <- pop_ ;;
  a <- eventBuffer_pp ;; memset_ a (Z.shiftr val 8) ;;
  a' <- eventBuffer_pp ;; memset_ a' val.

(** the [for (i = 0; i < len; i++) Serial.write(memget(here + i))] loop *)
Fixpoint footer_loop (k : nat) (i : Z) : M unit :=
  match k with
  | O => mret tt
  | S k' => h <- gets here ;; b <- memget_ (i16 (h + i)) ;; serial_write b ;;
            footer_loop k' (i + 1)
  end.

Definition eventFooter_ : M unit :=
  len <- gets (fun st => u8 (eventBuffer st - here st)) ;;
  serial_write (len - 1) ;;
  footer_loop (Z.to_nat len) 0.

(** [event(uint8_t id, int16_t val)] *)
Definition event_ (id val : Z) : M unit :=
  push_ id ;; eventHeader_ ;;
  (if negb (val =? 0)
   then (if (-128 <=? val) && (val <=? 127)
         then push_ val ;; eventBody8_
         else push_ val ;; eventBody16_)
   else mret tt) ;;
  eventFooter_.

End VM.

(** [error(uint8_t code)] is [event(code, VM_EVENT_ID)]; every checked
    operation it reaches reports through [error] again. *)
Fixpoint error (undef : Z) (n : nat) (code : Z) : M unit :=
  match n with
  | O => mfail
  | S n' => event_ undef (error undef n') code VM_EVENT_ID
  end.

(** ** Primitive instructions, the interpreter and the frame intake *)

Section Interp.

Variable undef : Z.
Variable err : Z -> M unit.

Local Abbreviation memget := (memget_ err).
Local Abbreviation memset := (memset_ err).
Local Abbreviation push := (push_ err).
Local Abbreviation pop := (pop_ undef err).
Local Abbreviation rpush := (rpush_ err).
Local Abbreviation rpop := (rpop_ undef err).

(** [p++]: yields the old program counter *)
Definition p_pp : M Z := fun st => Some (p st, set_p (i16 (p st + 1)) st).
(** [here++] *)
Definition here_pp : M Z := fun st => Some (here st, set_here (i16 (here st + 1)) st).

(** [*s] as an rvalue and as an lvalue *)
Definition tos : M Z := gets (fun st => dstack st (s st)).
Definition set_tos (v : Z) : M unit :=
  modify (fun st => set_dstack (upd (dstack st) (s st) (i16 v)) st).

Definition ret : M unit := v <- rpop ;; modify (set_p v).

Definition mem16 (address : Z) : M Z :=
  hi <- memget address ;;
  lo <- memget (i16 (address + 1)) ;;
  mret (Z.lor (i16 (Z.shiftl hi 8)) lo).

Definition eventOp : M unit :=
  id <- pop ;; val <- pop ;; event_ undef err (u8 (i8 id)) val.

Definition fetch8 : M unit := a <- tos ;; v <- memget a ;; set_tos v.
Definition store8 : M unit := a <- pop ;; v <- pop ;; memset a (u8 v).
Definition fetch16 : M unit := a <- tos ;; v <- mem16 a ;; set_tos v.
Definition store16 : M unit :=
  a <- pop ;; v <- pop ;; memset a (Z.shiftr v 8) ;; memset (i16 (a + 1)) v.

Definition lit8 : M unit := a <- p_pp ;; b <- memget a ;; push b.
Definition lit16 : M unit :=
  a <- p_pp ;; v <- mem16 a ;; push v ;;
  modify (fun st => set_p (i16 (p st + 1)) st).

(** binary ALU operations: [x = pop(); *s = *s op x] *)
Definition binop (f : Z -> Z -> Z) : M unit := x <- pop ;; t <- tos ;; set_tos (f t x).
Definition unop (f : Z -> Z) : M unit := t <- tos ;; set_tos (f t).

Definition boolval (b : bool) : Z := if b then 65535 else 0.

Definition shift_op (t x : Z) : Z := if x <? 0 then Z.shiftl t (- x) else Z.shiftr t x.

Definition drop : M unit := modify (fun st => set_s (s st - 1) st).
Definition dup : M unit := t <- tos ;; push t.
Definition swap : M unit :=
  modify (fun st =>
    let t := dstack st (s st) in
    let d := upd (dstack st) (s st) (dstack st (s st - 1)) in
    set_dstack (upd d (s st - 1) t) st).
Definition pick : M unit :=
  n <- pop ;; v <- gets (fun st => dstack st (s st - n)) ;; push v.

(** [for (i = s - n; i < s; i++) *i = *(i + 1)] *)
Fixpoint roll_shift (k : nat) (i : Z) (d : Z -> Z) : Z -> Z :=
  match k with
  | O => d
  | S k' => roll_shift k' (i + 1) (upd d i (d (i + 1)))
  end.

Definition roll : M unit :=
  n <- pop ;;
  modify (fun st =>
    let t := dstack st (s st - n) in
    let d := roll_shift (Z.to_nat n) (s st - n) (dstack st) in
    set_dstack (upd d (s st) t) st).

Definition clr : M unit := modify (set_s (-1)).

Definition pushr : M unit := v <- pop ;; rpush v.
Definition popr : M unit := v <- rpop ;; push v.
Definition peekr : M unit := v <- gets (fun st => rstack st (r st)) ;; push v.

Definition forget : M unit :=
  i <- pop ;; h <- gets here ;;
  if i <? h then modify (set_here i) else mret tt.

Definition call : M unit := pc <- gets p ;; rpush pc ;; a <- pop ;; modify (set_p a).

Definition quote : M unit :=
  a <- p_pp ;; len <- memget a ;; pc <- gets p ;; push pc ;;
  modify (fun st => set_p (i16 (p st + len)) st).

Definition choice : M unit :=
  f <- pop ;; t <- pop ;; pc <- gets p ;; rpush pc ;; c <- pop ;;
  modify (set_p (if c =? 0 then f else t)).

Definition chooseIf : M unit :=
  t <- pop ;; c <- pop ;;
  if negb (c =? 0) then pc <- gets p ;; rpush pc ;; modify (set_p t) else mret tt.

Definition next : M unit :=
  c <- rpop ;;
  let count := i16 (c - 1) in
  a <- p_pp ;; rel <- memget a ;;
  if count >? 0
  then rpush count ;; modify (fun st => set_p (i16 (p st - (rel + 2))) st)
  else mret tt.

Definition nop : M unit := mret tt.

Definition loopTicks : M unit := li <- gets loopIterations ;; push (Z.land li 32767).
Definition setLoop : M unit :=
  modify (set_loopIterations 0) ;; w <- pop ;; modify (set_loopword w).
Definition stopLoop : M unit := modify (set_loopword (-1)).

Definition resetBoard : M unit :=
  clr ;;
  modify (fun st => set_here 0 (set_last 0 st)) ;;
  modify (set_loopword (-1)) ;;
  modify (set_loopIterations 0).

(** The instruction table bound by [setup]; the platform adapters (49..57)
    are modelled apart ([board_instructions] below) and the unbound slots
    are empty. *)
Definition instructions : list (option (M unit)) :=
  [ Some ret; Some lit8; Some lit16; Some quote;
    Some (eventHeader_ undef err); Some (eventBody8_ undef err);
    Some (eventBody16_ undef err); Some (eventFooter_ err); Some eventOp;
    Some fetch8; Some store8; Some fetch16; Some store16;
    Some (binop Z.add); Some (binop Z.sub); Some (binop Z.mul);
    Some (binop Z.quot); Some (binop Z.rem);
    Some (binop Z.land); Some (binop Z.lor); Some (binop Z.lxor);
    Some (binop shift_op);
    Some (binop (fun t x => boolval (t =? x)));
    Some (binop (fun t x => boolval (negb (t =? x))));
    Some (binop (fun t x => boolval (x <? t)));
    Some (binop (fun t x => boolval (x <=? t)));
    Some (binop (fun t x => boolval (t <? x)));
    Some (binop (fun t x => boolval (t <=? x)));
    Some (unop Z.lnot); Some (unop Z.opp);
    Some (unop (fun t => t + 1)); Some (unop (fun t => t - 1));
    Some drop; Some dup; Some swap; Some pick; Some roll; Some clr;
    Some pushr; Some popr; Some peekr; Some forget; Some call; Some choice;
    Some chooseIf; Some loopTicks; Some setLoop; Some stopLoop; Some resetBoard;
    None; None; None; None; None; None; None; None; None;
    Some next; Some nop ].

(** one iteration of the [do { ... } while (p >= 0)] loop of [run] *)
Definition step : M unit :=
  a <- p_pp ;; i <- memget a ;;
  if Z.land i 128 =? 0
  then match nth_error instructions (Z.to_nat i) with
       | Some (Some f) => f
       | _ => mfail
       end
  else pc <- gets p ;; nb <- memget (i16 (pc + 1)) ;;
       (if negb (nb =? 0) then pc' <- gets p ;; rpush (i16 (pc' + 1)) else mret tt) ;;
       pc2 <- gets p ;; lo <- memget pc2 ;;
       modify (set_p (i16 (Z.lor (Z.land (Z.shiftl i 8) 32512) lo))).

Fixpoint run (k : nat) : M unit :=
  match k with
  | O => mfail
  | S k' => step ;; pc <- gets p ;; if pc >=? 0 then run k' else mret tt
  end.

Definition exec (k : nat) (address : Z) : M unit :=
  modify (set_r (-1)) ;; rpush (-1) ;; modify (set_p address) ;; run k.

(** [for (; len > 0; len--) { while (!Serial.available()); memset(here++, Serial.read()); }]
    over the bytes still to arrive; a missing byte blocks forever. *)
Fixpoint read_payload (len : nat) (input : list Z) : M (list Z) :=
  match len with
  | O => mret input
  | S l =>
      match input with
      | [] => mfail
      | b :: rest => a <- here_pp ;; memset a b ;; read_payload l rest
      end
  end.

(** the [if (Serial.available())] block of [loop]: header byte [b], then the
    payload read from [input]; returns the unread input *)
Definition frame_intake (k : nat) (b : Z) (input : list Z) : M (list Z) :=
  let b' := i8 b in
  let isExec := Z.land b' 128 =? 128 in
  let len := i8 (Z.land b' 127) in
  rest <- read_payload (Z.to_nat len) input ;;
  (if isExec
   then a <- here_pp ;; memset a 0 ;;
        l <- gets last ;; modify (set_here l) ;;
        h <- gets here ;; exec k h
   else h <- gets here ;; modify (set_last h)) ;;
  mret rest.

Definition loop (k : nat) (input : list Z) : M (list Z) :=
  rest <- (match input with [] => mret [] | b :: tl => frame_intake k b tl end) ;;
  lw <- gets loopword ;;
  (if lw >=? 0
   then exec k lw ;; modify (fun st => set_loopIterations (i16 (loopIterations st + 1)) st)
   else mret tt) ;;
  mret rest.

End Interp.

(** ** The platform instructions 49..57 *)

Definition MAX_INTERRUPTS : Z := 6.

Section Platform.

Variable undef : Z.
Variable err : Z -> M unit.

(** what the board answers to [::digitalRead(pin)], [::analogRead(pin)],
    [millis()] and [::pulseIn(pin, value)] *)
Variable digitalRead_hw : Z -> bool.
Variable analogRead_hw : Z -> Z.
Variable millis_hw : Z.
Variable pulseIn_hw : Z -> Z -> Z.

Local Abbreviation push := (push_ err).
Local Abbreviation pop := (pop_ undef err).

(** the pin-level calls have no effect on the modelled globals *)
Definition pinMode : M unit := pin <- pop ;; mode <- pop ;; mret tt.
Definition digitalRead : M unit :=
  pin <- pop ;; push (if digitalRead_hw pin then -1 else 0).
Definition digitalWrite : M unit := pin <- pop ;; v <- pop ;; mret tt.
Definition analogRead : M unit := pin <- pop ;; push (analogRead_hw pin).
Definition analogWrite : M unit := pin <- pop ;; v <- pop ;; mret tt.

(** [isrs] is not part of [St]: [isrs[interrupt] = ...] inside its
    [MAX_INTERRUPTS] cells touches nothing modelled; an index outside it
    writes past the array, which C leaves undefined: the model gives that
    run no outcome *)
Definition attachISR : M unit :=
  mode <- pop ;; interrupt <- pop ;; w <- pop ;;
  if u8 interrupt <? MAX_INTERRUPTS then mret tt else mfail.
Definition detachISR : M unit :=
  interrupt <- pop ;;
  if (0 <=? interrupt) && (interrupt <? MAX_INTERRUPTS) then mret tt else mfail.

Definition milliseconds : M unit := push millis_hw.
Definition pulseIn : M unit := pin <- pop ;; v <- pop ;; push (pulseIn_hw pin v).

Definition platform_instructions : list (M unit) :=
  [pinMode; digitalRead; digitalWrite; analogRead; analogWrite;
   attachISR; detachISR; milliseconds; pulseIn].

(** the whole table bound by [setup]: [instructions] with the platform
    adapters in slots 49..57 *)
Definition board_instructions : list (option (M unit)) :=
  firstn 49 (instructions undef err) ++ map Some platform_instructions ++
  skipn 58 (instructions undef err).

End Platform.

(** ** Operations with the error reporter tied to [error] *)

Definition memget (u : Z) (n : nat) := memget_ (error u n).
Definition memset (u : Z) (n : nat) := memset_ (error u n).
Definition push (u : Z) (n : nat) := push_ (error u n).
Definition pop (u : Z) (n : nat) := pop_ u (error u n).
Definition event (u : Z) (n : nat) := event_ u (error u n).
Definition eventBody8 (u : Z) (n : nat) := eventBody8_ u (error u n).
Definition eventBody16 (u : Z) (n : nat) := eventBody16_ u (error u n).
Definition eventFooter (u : Z) (n : nat) := eventFooter_ (error u n).
Definition vm_forget (u : Z) (n : nat) := forget u (error u n).

Definition vm_lit8 (u : Z) (n : nat) := lit8 (error u n).
Definition vm_step (u : Z) (n : nat) := step u (error u n).
Definition vm_exec (u : Z) (n : nat) := exec u (error u n).
Definition vm_frame_intake (u : Z) (n : nat) := frame_intake u (error u n).
Definition vm_run (u : Z) (n : nat) := run u (error u n).

(** the opcode [step] dispatches on at [st] ([memget] yields 0 out of
    range) *)
Definition fetched (st : St) : Z :=
  if (p st <? 0) || (p st >=? MEM_SIZE) then 0 else memory st (p st).

(** [run k] from [st] dispatches on no [forget] (41) before it stops *)
Fixpoint forget_free (u : Z) (n : nat) (k : nat) (st : St) : bool :=
  match k with
  | O => true
  | S k' =>
      negb (fetched st =? 41) &&
      match vm_step u n st with
      | Some (_, st1) => if p st1 >=? 0 then forget_free u n k' st1 else true
      | None => true
      end
  end.

(** the state after power-up: zero-initialised globals, [eventBuffer = MEM_SIZE],
    [loopword = -1], empty stacks *)
Definition initial (mem : list Z) : St :=
  mkSt (fun a => if (0 <=? a) && (a <? MEM_SIZE) then nth (Z.to_nat a) mem 0 else 0)
       (fun _ => 0) (-1) (fun _ => 0) (-1) 0 0 0 MEM_SIZE (-1) 0 [].

(** ** The encoding of a scalar event as the spec describes it *)

(** [len, id, body]: no body for 0, one signed byte for -128..127,
    otherwise the high byte then the low byte *)
Definition spec_scalar_event (id val : Z) : list Z :=
  if val =? 0 then [0; id]
  else if (-128 <=? val) && (val <=? 127) then [1; id; u8 val]
  else [2; id; u8 (Z.shiftr val 8); u8 val].

(** ** The dictionary cursors *)

(** the invariant [0 <= last <= here <= MEM_SIZE] stated for [here] and [last] *)
Definition dict_inv (st : St) : Prop :=
  0 <= last st <= here st /\ here st <= MEM_SIZE.

(** a computation that, whenever it completes, leaves [here] and [last] as
    they were *)
Definition keeps {A} (m : M A) : Prop :=
  forall st a st', m st = Some (a, st') -> here st' = here st /\ last st' = last st.

(** ** Boot *)

(** [setup()]: [Serial.begin], the [bind] calls (the table they fill is
    [board_instructions]) and the reset of the interrupt table are outside the
    model *)
Definition setup (u : Z) (n : nat) : M unit := resetBoard ;; event u n BOOT_EVENT_ID 0.

(** ** The effect of one ALU instruction *)

(** [m] run at [st] moves [s] by [d], advances [p] by one and leaves [v] on
    top; the other cells, memory, the return stack, the dictionary cursors
    and the serial output are unchanged *)
Definition replaces_top (m : M unit) (st : St) (d v : Z) : Prop :=
  exists st', m st = Some (tt, st') /\ s st' = s st + d /\ p st' = p st + 1 /\
    dstack st' (s st') = v /\ (forall i, i <> s st' -> dstack st' i = dstack st i) /\
    memory st' = memory st /\ serial_out st' = serial_out st /\
    r st' = r st /\ rstack st' = rstack st /\ here st' = here st /\ last st' = last st.

(** [f] holds at the [k] integers from [lo] on (evaluated) *)
Fixpoint zcheck (f : Z -> bool) (lo : Z) (k : nat) : bool :=
  match k with O => true | S k' => f lo && zcheck f (lo + 1) k' end.

(** * Proofs *)

Lemma i16_small z : -32768 <= z < 32768 -> i16 z = z.
Proof. intros H. unfold i16. rewrite Z.mod_small by lia. lia. Qed.

Lemma u8_small z : 0 <= z < 256 -> u8 z = z.
Proof. intros H. unfold u8. apply Z.mod_small; lia. Qed.

Lemma u8_u8 z : u8 (u8 z) = u8 z.
Proof. unfold u8. apply Z.mod_mod. lia. Qed.

(** one rewriting step of the symbolic evaluator: drop a C conversion that is
    the identity in range, or split on a comparison *)
Ltac zcase :=
  match goal with
  | |- context [i16 ?z] => rewrite (i16_small z) by lia
  | |- context [u8 (u8 ?z)] => rewrite (u8_u8 z)
  | |- context [u8 ?z] => rewrite (u8_small z) by lia
  | |- context [Z.to_nat ?e] =>
      first [ replace (Z.to_nat e) with 1%nat by lia
            | replace (Z.to_nat e) with 2%nat by lia
            | replace (Z.to_nat e) with 3%nat by lia ]
  | |- context [Z.eqb ?a ?b] => destruct (Z.eqb_spec a b)
  | |- context [Z.ltb ?a ?b] => destruct (Z.ltb_spec a b)
  | |- context [Z.leb ?a ?b] => destruct (Z.leb_spec a b)
  | |- context [Z.geb ?a ?b] => rewrite (Z.geb_leb a b)
  | |- context [Z.gtb ?a ?b] => rewrite (Z.gtb_ltb a b)
  end.

(** symbolic evaluation of a monadic VM computation on an abstract state *)
Ltac crunch :=
  repeat (unfold mbind, mret, gets, modify, eventBuffer_pp, pop_, push_, rpush_, rpop_,
            memset_, memget_, serial_write, upd, MEM_SIZE, DATA_STACK_SIZE,
            RETURN_STACK_SIZE in *;
          cbn -[i16 u8 Z.shiftr Z.shiftl Z.land Z.lor]; try zcase; try (exfalso; lia)).

(** The scalar event helper, when the data stack has room for the two cells
    it pushes and pops and the three scratch bytes at [here] are in memory. *)
Lemma event_ok u n id val st :
  0 <= id < 256 -> -32768 <= val < 32768 ->
  0 <= here st -> here st + 3 <= MEM_SIZE ->
  -1 <= s st < DATA_STACK_SIZE ->
  exists st', event u n id val st = Some (tt, st') /\
    serial_out st' = serial_out st ++ spec_scalar_event id val /\
    (forall x, x < here st \/ here st + 3 <= x -> memory st' x = memory st x) /\
    s st' = s st /\ here st' = here st /\ last st' = last st /\
    p st' = p st /\ r st' = r st /\ rstack st' = rstack st /\
    eventBuffer st' = here st + Z.of_nat (length (spec_scalar_event id val)) - 1.
Proof.
  intros Hid Hv Hh1 Hh2 Hs.
  unfold event, event_, eventHeader_, eventBody8_, eventBody16_, eventFooter_,
    spec_scalar_event in *.
  crunch;
    (eexists; split; [reflexivity|]; cbn; rewrite <- ?app_assoc; cbn;
     repeat split; try (cbn; lia); try (repeat f_equal; lia);
     intros x Hx; repeat (zcase; try lia); reflexivity).
Qed.

Lemma set_serial_out_same st : set_serial_out (serial_out st) st = st.
Proof. destruct st; reflexivity. Qed.

(** the footer's copy loop sends [memory[here + i .. here + i + k)] *)
Lemma footer_loop_ok err k i st :
  0 <= here st -> 0 <= i -> here st + i + Z.of_nat k <= MEM_SIZE ->
  footer_loop err k i st =
  Some (tt, set_serial_out (serial_out st ++
             map (fun j => u8 (memory st (here st + Z.of_nat j))) (seq (Z.to_nat i) k)) st).
Proof.
  revert i st. induction k as [|k IH]; intros i st H0 Hi Hk.
  - cbn. rewrite app_nil_r, set_serial_out_same. reflexivity.
  - cbn [footer_loop]. unfold mbind, gets, memget_, serial_write, modify.
    rewrite i16_small by (unfold MEM_SIZE in *; lia).
    destruct ((here st + i <? 0) || (here st + i >=? MEM_SIZE)) eqn:E.
    { exfalso. apply orb_true_iff in E. unfold MEM_SIZE in *.
      destruct E as [E|E]; [apply Z.ltb_lt in E | apply Z.geb_le in E]; lia. }
    cbn. rewrite IH by (cbn; lia). cbn.
    replace (Z.to_nat (i + 1)) with (S (Z.to_nat i)) by lia.
    rewrite <- app_assoc. cbn.
    replace (here st + Z.of_nat (Z.to_nat i)) with (here st + i) by lia.
    reflexivity.
Qed.

(** ** C7: the outbound event encoding *)



(** ** C1: the error event *)

(** C1. [error(code)] calls [event(code, VM_EVENT_ID)]: the event it sends
    has the error code as its id byte and carries [VM_EVENT_ID] (0xFE) as a
    two-byte body, i.e. the bytes [2, code, 0x00, 0xFE]. *)
Theorem error_event_bytes u n code st :
  0 <= code < 256 -> 0 <= here st -> here st + 3 <= MEM_SIZE ->
  -1 <= s st < DATA_STACK_SIZE ->
  exists st', error u (S n) code st = Some (tt, st') /\
    serial_out st' = serial_out st ++ [2; code; 0; VM_EVENT_ID].
Proof.
  intros Hc H0 H1 Hs.
  assert (Hv : -32768 <= VM_EVENT_ID < 32768) by (unfold VM_EVENT_ID; lia).
  destruct (event_ok u n code VM_EVENT_ID st Hc Hv H0 H1 Hs) as (st' & E & O & _).
  exists st'. split; [exact E|]. rewrite O. reflexivity.
Qed.

(** ** C4: pushing onto a full data stack *)

(** C4. With [DATA_STACK_SIZE] cells on the data stack ([s] at the last
    slot), [push] passes its overflow test: it stores the value one past the
    end of [dstack], the depth becomes [DATA_STACK_SIZE + 1], and no event is
    sent. *)
Theorem push_full_stack u n x st :
  s st = DATA_STACK_SIZE - 1 ->
  push u n x st =
  Some (tt, set_dstack (upd (dstack st) DATA_STACK_SIZE (i16 x)) (set_s DATA_STACK_SIZE st)).
Proof.
  intros Hs. unfold push, push_. rewrite Hs. reflexivity.
Qed.

(** ** C5: [lit8] *)

(** C5. [lit8] pushes its operand byte [b] as [memget] returns it, an
    unsigned value in 0..255: an operand 0x80..0xFF is pushed as [b], not as
    the signed value [b - 256]. *)
Theorem lit8_pushes_unsigned u n st b :
  0 <= p st < MEM_SIZE -> memory st (p st) = b -> 0 <= b < 256 ->
  -1 <= s st < DATA_STACK_SIZE ->
  exists st', vm_lit8 u n st = Some (tt, st') /\
    s st' = s st + 1 /\ dstack st' (s st') = b /\ p st' = p st + 1 /\
    serial_out st' = serial_out st.
Proof.
  intros Hp Hm Hb Hs. unfold vm_lit8, lit8, p_pp.
  crunch; eexists; (split; [reflexivity|]); cbn; repeat split; try lia.
  all: repeat (zcase; try lia); congruence.
Qed.


(** ** C2: call decoding and tail calls *)

(** a property of the integers of a finite range, checked by evaluation *)
Lemma range_check (f : Z -> bool) (lo : Z) (k : nat) :
  forallb f (map (fun i => lo + Z.of_nat i) (seq 0 k)) = true ->
  forall z, lo <= z < lo + Z.of_nat k -> f z = true.
Proof.
  intros H z Hz. rewrite forallb_forall in H.
  replace z with (lo + Z.of_nat (Z.to_nat (z - lo))) by lia.
  apply H, in_map_iff. exists (Z.to_nat (z - lo)). split; [reflexivity|]. apply in_seq. lia.
Qed.

Lemma land_128_high b : 128 <= b < 256 -> Z.land b 128 = 128.
Proof.
  intros Hb. apply Z.eqb_eq.
  apply (range_check (fun b => Z.land b 128 =? 128) 128 128); [vm_compute; reflexivity | lia].
Qed.

Lemma land_128_low b : 0 <= b < 128 -> Z.land b 128 = 0.
Proof.
  intros Hb. apply Z.eqb_eq.
  apply (range_check (fun b => Z.land b 128 =? 0) 0 128); [vm_compute; reflexivity | lia].
Qed.

(** the jump target computed by [run] is the 15-bit address
    [((b0 & 0x7F) << 8) | b1], and it is a non-negative [int16_t] *)
Lemma call_target b0 b1 :
  128 <= b0 < 256 -> 0 <= b1 < 256 ->
  i16 (Z.lor (Z.land (Z.shiftl b0 8) 32512) b1) = Z.lor (Z.shiftl (Z.land b0 127) 8) b1 /\
  0 <= Z.lor (Z.shiftl (Z.land b0 127) 8) b1 < 32768.
Proof.
  intros H0 H1.
  assert (Ec : Z.land b0 127 = b0 - 128).
  { change 127 with (Z.ones 7). rewrite Z.land_ones by lia.
    change (2 ^ 7) with 128. rewrite Z.mod_eq by lia.
    replace (b0 / 128) with 1 by (apply Z.div_unique with (b0 - 128); lia). lia. }
  assert (Es : Z.land (Z.shiftl b0 8) 32512 = Z.shiftl (Z.land b0 127) 8).
  { change 32512 with (Z.shiftl 127 8). rewrite Z.shiftl_land. reflexivity. }
  rewrite Es, Ec, Z.shiftl_mul_pow2 by lia. change (2 ^ 8) with 256.
  assert (Hb : 0 <= Z.lor ((b0 - 128) * 256) b1 < 32768).
  { pose proof (Z.add_lor_land ((b0 - 128) * 256) b1) as A.
    assert (0 <= Z.land ((b0 - 128) * 256) b1) by (apply Z.land_nonneg; lia).
    assert (0 <= Z.lor ((b0 - 128) * 256) b1) by (apply Z.lor_nonneg; lia).
    lia. }
  split; [apply i16_small; lia | exact Hb].
Qed.

(** C2. A byte [b0] with its top bit set, fetched at [p], is a two-byte call
    to [((b0 & 0x7F) << 8) | b1] with [b1] the following byte.  When the byte
    after [b1] is 0 ([ret]) the step only jumps: the return stack is left as it
    was (tail call).  Otherwise [p + 2] (one past [b1]) is pushed onto the
    return stack (which has room below its overflow test) before the jump. *)
Theorem step_call u n st b0 b1 nx :
  0 <= p st -> p st + 2 < MEM_SIZE ->
  memory st (p st) = b0 -> 128 <= b0 < 256 ->
  memory st (p st + 1) = b1 -> 0 <= b1 < 256 ->
  memory st (p st + 2) = nx ->
  (nx = 0 ->
   vm_step u n st = Some (tt, set_p (Z.lor (Z.shiftl (Z.land b0 127) 8) b1) st)) /\
  (nx <> 0 -> r st < RETURN_STACK_SIZE ->
   vm_step u n st =
   Some (tt, set_p (Z.lor (Z.shiftl (Z.land b0 127) 8) b1)
               (set_rstack (upd (rstack st) (r st + 1) (p st + 2)) (set_r (r st + 1) st)))).
Proof.
  intros Hp0 Hp1 E0 Hb0 E1 Hb1 E2.
  destruct (call_target b0 b1 Hb0 Hb1) as [Et Ht].
  unfold vm_step, step, p_pp.
  unfold mbind, mret, gets, modify, memget_, MEM_SIZE, RETURN_STACK_SIZE in *.
  cbn -[i16 Z.shiftl Z.land Z.lor].
  rewrite !(i16_small (p st + 1)) by lia.
  destruct (Z.ltb_spec (p st) 0); [lia|]. destruct (Z.geb_spec (p st) 512); [lia|].
  cbn -[i16 Z.shiftl Z.land Z.lor]. rewrite E0, (land_128_high b0 Hb0).
  cbn -[i16 Z.shiftl Z.land Z.lor].
  rewrite (i16_small (p st + 1 + 1)) by lia.
  replace (p st + 1 + 1) with (p st + 2) by lia.
  destruct (Z.ltb_spec (p st + 2) 0); [lia|]. destruct (Z.geb_spec (p st + 2) 512); [lia|].
  cbn -[i16 Z.shiftl Z.land Z.lor]. rewrite E2.
  split; intros Hn.
  - rewrite Hn. cbn -[i16 Z.shiftl Z.land Z.lor].
    destruct (Z.ltb_spec (p st + 1) 0); [lia|]. destruct (Z.geb_spec (p st + 1) 512); [lia|].
    cbn -[i16 Z.shiftl Z.land Z.lor]. rewrite E1, Et. reflexivity.
  - intros Hr. destruct (Z.eqb_spec nx 0); [contradiction|].
    unfold rpush_, RETURN_STACK_SIZE. cbn -[i16 Z.shiftl Z.land Z.lor].
    destruct (Z.geb_spec (r st) 4); [lia|].
    cbn -[i16 Z.shiftl Z.land Z.lor].
    rewrite (i16_small (p st + 1 + 1)) by lia.
    replace (p st + 1 + 1) with (p st + 2) by lia.
    destruct (Z.ltb_spec (p st + 1) 0); [lia|]. destruct (Z.geb_spec (p st + 1) 512); [lia|].
    cbn -[i16 Z.shiftl Z.land Z.lor]. rewrite E1, Et, (i16_small (p st + 2)) by lia.
    reflexivity.
Qed.

(** ** C3: bounds-checked [memget] / [memset] *)

(** [error(code)] in the normal case: the event [code, VM_EVENT_ID] is
    assembled in the three scratch bytes at [here] *)
Lemma error_ok u n code st :
  0 <= code < 256 -> 0 <= here st -> here st + 3 <= MEM_SIZE ->
  -1 <= s st < DATA_STACK_SIZE ->
  exists st', error u (S n) code st = Some (tt, st') /\
    (forall x, x < here st \/ here st + 3 <= x -> memory st' x = memory st x) /\
    s st' = s st /\ here st' = here st /\ last st' = last st /\
    eventBuffer st' = here st + 3.
Proof.
  intros Hc H0 H1 Hs.
  assert (Hv : -32768 <= VM_EVENT_ID < 32768) by (unfold VM_EVENT_ID; lia).
  destruct (event_ok u n code VM_EVENT_ID st Hc Hv H0 H1 Hs)
    as (st' & E & _ & Hm & Hs' & Hh & Hl & _ & _ & _ & He).
  exists st'. repeat split; auto.
  rewrite He. unfold spec_scalar_event, VM_EVENT_ID. cbn. lia.
Qed.

(** C3 (amended). [memget] and [memset] succeed for [0 <= addr < MEM_SIZE].
    [memget] at an address outside that range and [memset] at an address
    [>= MEM_SIZE] only raise [OUT_OF_MEMORY] ([memget] returning 0): their
    result is exactly the state left by [error(OUT_OF_MEMORY)], whose event is
    assembled at [here], so no dictionary byte outside [here .. here + 2]
    changes.  (The error event is assumed to fit: [here + 3 <= MEM_SIZE] and
    room on the data stack.) *)
Theorem memory_bounds u n st :
  0 <= here st -> here st + 3 <= MEM_SIZE -> -1 <= s st < DATA_STACK_SIZE ->
  (forall a, 0 <= a < MEM_SIZE -> memget u n a st = Some (memory st a, st)) /\
  (forall a v, 0 <= a < MEM_SIZE ->
     memset u n a v st = Some (tt, set_memory (upd (memory st) a (u8 v)) st)) /\
  (forall a, a < 0 \/ MEM_SIZE <= a ->
     exists st', error u (S n) VM_ERROR_OUT_OF_MEMORY st = Some (tt, st') /\
       memget u (S n) a st = Some (0, st') /\
       (forall x, x < here st \/ here st + 3 <= x -> memory st' x = memory st x)) /\
  (forall a v, MEM_SIZE <= a ->
     exists st', error u (S n) VM_ERROR_OUT_OF_MEMORY st = Some (tt, st') /\
       memset u (S n) a v st = Some (tt, st') /\
       (forall x, x < here st \/ here st + 3 <= x -> memory st' x = memory st x)).
Proof.
  intros H0 H1 Hs.
  assert (Hc : 0 <= VM_ERROR_OUT_OF_MEMORY < 256) by (unfold VM_ERROR_OUT_OF_MEMORY; lia).
  destruct (error_ok u n VM_ERROR_OUT_OF_MEMORY st Hc H0 H1 Hs) as (st' & E & Hm & _).
  unfold memget, memset, memget_, memset_, mbind, mret, gets, modify.
  repeat split.
  - intros a Ha. destruct (Z.ltb_spec a 0); [lia|]. destruct (Z.geb_spec a MEM_SIZE); [lia|].
    reflexivity.
  - intros a v Ha. destruct (Z.geb_spec a MEM_SIZE); [lia|]. reflexivity.
  - intros a Ha. exists st'. split; [exact E|]. split; [|exact Hm].
    replace ((a <? 0) || (a >=? MEM_SIZE)) with true
      by (destruct Ha; [destruct (Z.ltb_spec a 0) | destruct (Z.geb_spec a MEM_SIZE)];
          rewrite ?orb_true_r; auto; lia).
    rewrite E. reflexivity.
  - intros a v Ha. exists st'. split; [exact E|]. split; [|exact Hm].
    destruct (Z.geb_spec a MEM_SIZE); [exact E | lia].
Qed.

(** C3 counterexample: a store beyond the memory raises [OUT_OF_MEMORY],
    but the error event is assembled at [here] (0 after reset), so byte 0 of
    the memory array changes from 0 to the error code 4. *)
Lemma memset_out_of_range_writes_scratch :
  match memset 0 1 MEM_SIZE 7 (initial []) with
  | Some (_, st') => memory (initial []) 0 = 0 /\ memory st' 0 = VM_ERROR_OUT_OF_MEMORY
  | None => False
  end.
Proof. vm_compute. split; reflexivity. Qed.

(** ** C9: event body and footer before any header *)

(** C9 (amended). While the event cursor still holds [MEM_SIZE] (no header
    has run), [eventBody8] pops its value, advances the cursor and raises
    [OUT_OF_MEMORY]: its result is exactly [error(OUT_OF_MEMORY)] run from
    there, which assembles its event at [here], leaves the cursor at
    [here + 3] and changes no byte outside [here .. here + 2].  [eventBody16]
    likewise raises [OUT_OF_MEMORY] for its high byte, after which its low
    byte lands at [here + 3] and the cursor at [here + 4].  [eventFooter]
    modifies no memory. *)
Theorem body_before_header u n st :
  eventBuffer st = MEM_SIZE -> 0 <= here st -> here st + 4 <= MEM_SIZE ->
  0 <= s st < DATA_STACK_SIZE ->
  (eventBody8 u (S n) st =
     error u (S n) VM_ERROR_OUT_OF_MEMORY
       (set_s (s st - 1) (set_eventBuffer (MEM_SIZE + 1) st)) /\
   exists st', eventBody8 u (S n) st = Some (tt, st') /\
     eventBuffer st' = here st + 3 /\
     (forall x, x < here st \/ here st + 3 <= x -> memory st' x = memory st x)) /\
  (exists st', eventBody16 u (S n) st = Some (tt, st') /\
     memory st' (here st + 3) = u8 (dstack st (s st)) /\
     eventBuffer st' = here st + 4 /\
     (forall x, x < here st \/ here st + 4 <= x -> memory st' x = memory st x)) /\
  (exists st', eventFooter u n st = Some (tt, st') /\ memory st' = memory st).
Proof.
  intros He H0 H1 Hs.
  assert (Hc : 0 <= VM_ERROR_OUT_OF_MEMORY < 256) by (unfold VM_ERROR_OUT_OF_MEMORY; lia).
  split; [|split].
  - assert (E8 : eventBody8 u (S n) st =
       error u (S n) VM_ERROR_OUT_OF_MEMORY
         (set_s (s st - 1) (set_eventBuffer (MEM_SIZE + 1) st))).
    { unfold eventBody8, eventBody8_, eventBuffer_pp, pop_, memset_, mbind.
      rewrite He, i16_small by (unfold MEM_SIZE; lia). cbn [set_eventBuffer s].
      destruct (Z.ltb_spec (s st) 0); [lia|].
      destruct (Z.geb_spec MEM_SIZE MEM_SIZE); [|lia]. reflexivity. }
    split; [exact E8|].
    destruct (error_ok u n VM_ERROR_OUT_OF_MEMORY
                (set_s (s st - 1) (set_eventBuffer (MEM_SIZE + 1) st)) Hc)
      as (st' & E & Hm & _ & Hh & _ & Hb); [cbn; lia ..|].
    cbn in Hm, Hh, Hb. exists st'. rewrite E8, E. auto.
  - destruct (error_ok u n VM_ERROR_OUT_OF_MEMORY
                (set_eventBuffer (MEM_SIZE + 1) (set_s (s st - 1) st)) Hc)
      as (st1 & E & Hm & Hs1 & Hh & _ & Hb); [cbn; lia ..|].
    cbn in Hm, Hs1, Hh, Hb.
    unfold eventBody16, eventBody16_, eventBuffer_pp, pop_, memset_, mbind, modify.
    destruct (Z.ltb_spec (s st) 0); [lia|]. cbn [set_s eventBuffer].
    rewrite He, i16_small by (unfold MEM_SIZE; lia).
    destruct (Z.geb_spec MEM_SIZE MEM_SIZE); [|lia].
    rewrite E, Hb, i16_small by (unfold MEM_SIZE in *; lia).
    destruct (Z.geb_spec (here st + 3) MEM_SIZE); [lia|].
    eexists. split; [reflexivity|]. cbn. unfold upd.
    rewrite Z.eqb_refl. repeat split; [lia|].
    intros x Hx. destruct (Z.eqb_spec x (here st + 3)); [lia|]. apply Hm. lia.
  - unfold eventFooter, eventFooter_, mbind, gets, serial_write, modify.
    rewrite He. cbn [set_serial_out here].
    rewrite footer_loop_ok.
    + eexists. split; reflexivity.
    + cbn [set_serial_out here]. lia.
    + lia.
    + cbn [set_serial_out here]. unfold u8.
      assert (Hd : 0 <= MEM_SIZE - here st) by lia.
      pose proof (Z.mod_le (MEM_SIZE - here st) 256 Hd ltac:(lia)).
      rewrite Z2Nat.id by (apply Z.mod_pos_bound; lia).
      lia.
Qed.

(** C9 counterexample: after reset ([here = 0], cursor [MEM_SIZE]) with one
    value on the stack, [eventBody8] overwrites byte 0 of the dictionary with
    the error code of its own [OUT_OF_MEMORY] event. *)
Lemma eventBody8_before_header_writes :
  match eventBody8 0 1 (set_dstack (fun _ => 9) (set_s 0 (initial []))) with
  | Some (_, st') => memory (initial []) 0 = 0 /\ memory st' 0 = VM_ERROR_OUT_OF_MEMORY
  | None => False
  end.
Proof. vm_compute. split; reflexivity. Qed.

(** ** C6: intake of a definition frame *)

(** the payload loop stores the next [L] input bytes at [here .. here + L) *)
Lemma read_payload_ok err L input st :
  0 <= here st -> here st + Z.of_nat L <= MEM_SIZE -> (L <= length input)%nat ->
  exists st', read_payload err L input st = Some (skipn L input, st') /\
    here st' = here st + Z.of_nat L /\ last st' = last st /\
    (forall j, 0 <= j < Z.of_nat L ->
       memory st' (here st + j) = u8 (nth (Z.to_nat j) input 0)) /\
    (forall x, x < here st \/ here st + Z.of_nat L <= x -> memory st' x = memory st x) /\
    s st' = s st /\ dstack st' = dstack st /\ serial_out st' = serial_out st.
Proof.
  revert input st. induction L as [|L IH]; intros input st H0 H1 Hl.
  - exists st. cbn. repeat split; auto; lia.
  - destruct input as [|b rest]; [cbn in Hl; lia|]. cbn in Hl.
    cbn [read_payload]. unfold mbind, here_pp, memset_, modify.
    rewrite i16_small by (unfold MEM_SIZE in *; lia).
    destruct (Z.geb_spec (here st) MEM_SIZE); [lia|].
    set (st1 := set_memory (upd (memory (set_here (here st + 1) st)) (here st) (u8 b))
                  (set_here (here st + 1) st)).
    destruct (IH rest st1) as (st' & E & Hh & Hla & Hin & Hout & Hs & Hd & Ho);
      [cbn; lia | cbn; lia | lia |].
    cbn in Hh, Hla, Hin, Hout, Hs, Hd, Ho.
    exists st'. rewrite E. cbn [skipn]. repeat split.
    + lia.
    + exact Hla.
    + intros j Hj. destruct (Z.eq_dec j 0) as [->|Hj0].
      * rewrite Hout by lia. unfold upd. rewrite Z.add_0_r, Z.eqb_refl. reflexivity.
      * replace (here st + j) with (here st + 1 + (j - 1)) by lia.
        rewrite Hin by lia. replace (Z.to_nat j) with (S (Z.to_nat (j - 1))) by lia.
        reflexivity.
    + intros x Hx. rewrite Hout by lia. unfold upd.
      destruct (Z.eqb_spec x (here st)); [lia|reflexivity].
    + exact Hs.
    + exact Hd.
    + exact Ho.
Qed.

Lemma land_127_low b : 0 <= b < 128 -> Z.land b 127 = b.
Proof.
  intros Hb. change 127 with (Z.ones 7). rewrite Z.land_ones by lia.
  apply Z.mod_small. change (2 ^ 7) with 128. lia.
Qed.

Lemma i8_small b : -128 <= b < 128 -> i8 b = b.
Proof.
  intros Hb. unfold i8. rewrite Z.mod_small by lia. lia.
Qed.

(** the frame intake of a definition frame that fits in memory *)
Lemma frame_intake_definition u n k b input st :
  0 <= b < 128 -> 0 <= here st -> here st + b <= MEM_SIZE ->
  (Z.to_nat b <= length input)%nat ->
  exists st', vm_frame_intake u n k b input st = Some (skipn (Z.to_nat b) input, st') /\
    here st' = here st + b /\ last st' = here st' /\
    (forall j, 0 <= j < b -> memory st' (here st + j) = u8 (nth (Z.to_nat j) input 0)) /\
    (forall x, x < here st \/ here st + b <= x -> memory st' x = memory st x) /\
    s st' = s st /\ serial_out st' = serial_out st.
Proof.
  intros Hb H0 H1 Hl.
  unfold vm_frame_intake, frame_intake.
  rewrite (i8_small b), land_127_low, (i8_small b), land_128_low by lia.
  destruct (read_payload_ok (error u n) (Z.to_nat b) input st H0 ltac:(lia) Hl)
    as (st1 & E & Hh & Hla & Hin & Hout & Hs & _ & Ho).
  rewrite Z2Nat.id in Hh, Hin, Hout by lia.
  unfold mbind. rewrite E. cbn.
  eexists. split; [reflexivity|]. cbn. repeat split; auto.
Qed.

(** C6 (amended). A definition frame (header byte [L] with [0 <= L < 128])
    whose payload fits the memory stores the [L] payload bytes at
    [old here .. old here + L), leaves [here] at [old here + L], one past the
    definition's final byte, and sets [last] to that same value: [last]
    marks the end of the committed dictionary, where the next frame's code is
    assembled.  The unread input is returned. *)
Theorem definition_intake u n k b input st :
  0 <= b < 128 -> 0 <= here st -> here st + b <= MEM_SIZE ->
  (Z.to_nat b <= length input)%nat ->
  exists st', vm_frame_intake u n k b input st = Some (skipn (Z.to_nat b) input, st') /\
    here st' = here st + b /\ last st' = here st' /\
    (forall j, 0 <= j < b -> memory st' (here st + j) = u8 (nth (Z.to_nat j) input 0)) /\
    (forall x, x < here st \/ here st + b <= x -> memory st' x = memory st x) /\
    s st' = s st /\ serial_out st' = serial_out st.
Proof.
  intros Hb H0 H1 Hl. exact (frame_intake_definition u n k b input st Hb H0 H1 Hl).
Qed.

(** C6 counterexample: the definition frame [3; 1 5 0] taken in at
    [here = 0] leaves [last = 3], not the definition's first byte 0. *)
Lemma definition_intake_last_after :
  match vm_frame_intake 0 0 0 3 [1; 5; 0] (initial []) with
  | Some (_, st') => here st' = 3 /\ last st' = 3
  | None => False
  end.
Proof. vm_compute. split; reflexivity. Qed.

(** ** C8: the dictionary cursors *)

Lemma keeps_ret {A} (x : A) : keeps (mret x).
Proof. intros st a st' H. inversion H. auto. Qed.

Lemma keeps_fail {A} : keeps (@mfail A).
Proof. intros st a st' H. discriminate. Qed.

Lemma keeps_gets {A} (f : St -> A) : keeps (gets f).
Proof. intros st a st' H. inversion H. auto. Qed.

Lemma keeps_modify f :
  (forall st, here (f st) = here st /\ last (f st) = last st) -> keeps (modify f).
Proof. intros Hf st a st' H. inversion H. apply Hf. Qed.

Lemma keeps_bind {A B} (m : M A) (k : A -> M B) :
  keeps m -> (forall x, keeps (k x)) -> keeps (mbind m k).
Proof.
  intros Hm Hk st b st'. unfold mbind.
  destruct (m st) as [[x st1]|] eqn:E; [|discriminate]. intros H.
  destruct (Hm _ _ _ E). destruct (Hk _ _ _ _ H). split; congruence.
Qed.

Lemma keeps_if {A} (c : bool) (m1 m2 : M A) : keeps m1 -> keeps m2 -> keeps (if c then m1 else m2).
Proof. destruct c; auto. Qed.

Section Keeps.

Variable undef : Z.
Variable err : Z -> M unit.
Hypothesis Herr : forall c, keeps (err c).

Lemma keeps_push x : keeps (push_ err x).
Proof.
  intros st a st'. unfold push_. destruct (s st >=? DATA_STACK_SIZE).
  - apply Herr.
  - intros H. inversion H. auto.
Qed.

Lemma keeps_pop : keeps (pop_ undef err).
Proof.
  intros st a st'. unfold pop_. destruct (s st <? 0).
  - apply keeps_bind; [apply Herr | intros; apply keeps_ret].
  - intros H. inversion H. auto.
Qed.

Lemma keeps_rpush x : keeps (rpush_ err x).
Proof.
  intros st a st'. unfold rpush_. destruct (r st >=? RETURN_STACK_SIZE).
  - apply Herr.
  - intros H. inversion H. auto.
Qed.

Lemma keeps_rpop : keeps (rpop_ undef err).
Proof.
  intros st a st'. unfold rpop_. destruct (r st <? 0).
  - apply keeps_bind; [apply Herr | intros; apply keeps_ret].
  - intros H. inversion H. auto.
Qed.

Lemma keeps_eventBuffer_pp : keeps eventBuffer_pp.
Proof. intros st a st' H. inversion H. auto. Qed.

Lemma keeps_p_pp : keeps p_pp.
Proof. intros st a st' H. inversion H. auto. Qed.

Lemma keeps_memget a : keeps (memget_ err a).
Proof.
  unfold memget_. apply keeps_if; [apply keeps_bind; [apply Herr | intros; apply keeps_ret]|].
  apply keeps_gets.
Qed.

Lemma keeps_memset a v : keeps (memset_ err a v).
Proof.
  unfold memset_. apply keeps_if; [apply Herr|]. apply keeps_modify. auto.
Qed.

Lemma keeps_serial_write b : keeps (serial_write b).
Proof. apply keeps_modify. auto. Qed.

(** the generic step: peel binds, conditionals and the primitives above *)
Ltac keep :=
  repeat first
    [ apply keeps_ret | apply keeps_fail | apply keeps_gets
    | apply keeps_push | apply keeps_pop | apply keeps_rpush | apply keeps_rpop
    | apply keeps_eventBuffer_pp | apply keeps_p_pp | apply keeps_memget
    | apply keeps_memset | apply keeps_serial_write
    | apply keeps_modify; intros; split; reflexivity
    | apply keeps_if
    | apply keeps_bind; [|intros ?]
    | progress cbv zeta ].

Lemma keeps_footer_loop k i : keeps (footer_loop err k i).
Proof.
  revert i. induction k as [|k IH]; intros i; cbn [footer_loop]; keep. apply IH.
Qed.

Lemma keeps_event id val : keeps (event_ undef err id val).
Proof.
  unfold event_, eventHeader_, eventBody8_, eventBody16_, eventFooter_. keep.
  apply keeps_footer_loop.
Qed.

Lemma keeps_instruction (i : nat) f :
  nth_error (instructions undef err) i = Some (Some f) -> i <> 41%nat -> i <> 48%nat ->
  keeps f.
Proof.
  intros Hn H41 H48.
  do 60 (destruct i as [|i];
         [cbn in Hn; inversion Hn; subst;
          unfold ret, lit8, lit16, quote, eventHeader_, eventBody8_, eventBody16_,
            eventFooter_, eventOp, fetch8, store8, fetch16, store16, mem16, binop, unop,
            tos, set_tos, drop, dup, swap, pick, roll, clr, pushr, popr, peekr, call,
            choice, chooseIf, loopTicks, setLoop, stopLoop, next, nop;
          keep; try apply keeps_footer_loop; try apply keeps_event; try lia
         |]).
  cbn in Hn. destruct i; discriminate.
Qed.

Variable digitalRead_hw : Z -> bool.
Variable analogRead_hw : Z -> Z.
Variable millis_hw : Z.
Variable pulseIn_hw : Z -> Z -> Z.

Lemma keeps_board_instruction (i : nat) f :
  nth_error (board_instructions undef err digitalRead_hw analogRead_hw millis_hw pulseIn_hw) i
  = Some (Some f) -> i <> 41%nat -> i <> 48%nat ->
  keeps f.
Proof.
  intros Hn H41 H48. unfold board_instructions, platform_instructions in Hn.
  do 60 (destruct i as [|i];
         [cbn in Hn; inversion Hn; subst;
          unfold ret, lit8, lit16, quote, eventHeader_, eventBody8_, eventBody16_,
            eventFooter_, eventOp, fetch8, store8, fetch16, store16, mem16, binop, unop,
            tos, set_tos, drop, dup, swap, pick, roll, clr, pushr, popr, peekr, call,
            choice, chooseIf, loopTicks, setLoop, stopLoop, next, nop,
            pinMode, digitalRead, digitalWrite, analogRead, analogWrite, attachISR,
            detachISR, milliseconds, pulseIn;
          keep; try apply keeps_footer_loop; try apply keeps_event; try lia
         |]).
  cbn in Hn. destruct i; discriminate.
Qed.

(** [memget] yields the cell, or 0 out of range *)
Lemma memget_value a st i st' :
  memget_ err a st = Some (i, st') ->
  i = if (a <? 0) || (a >=? MEM_SIZE) then 0 else memory st a.
Proof.
  unfold memget_. destruct ((a <? 0) || (a >=? MEM_SIZE)).
  - unfold mbind. destruct (err VM_ERROR_OUT_OF_MEMORY st) as [[[] st1]|]; [|discriminate].
    intros H. inversion H. reflexivity.
  - intros H. inversion H. reflexivity.
Qed.

Lemma resetBoard_cursors st st' :
  resetBoard st = Some (tt, st') -> here st' = 0 /\ last st' = 0.
Proof. intros H. inversion H. auto. Qed.

(** one step that does not dispatch on [forget] keeps the invariant *)
Lemma step_inv st st' :
  dict_inv st -> fetched st <> 41 -> step undef err st = Some (tt, st') -> dict_inv st'.
Proof.
  intros Hi Hf. unfold step. unfold mbind at 1. unfold p_pp. cbv beta iota.
  unfold mbind at 1.
  destruct (memget_ err (p st) (set_p (i16 (p st + 1)) st)) as [[i st1]|] eqn:Em;
    [|discriminate].
  pose proof (memget_value _ _ _ _ Em) as Ei. unfold fetched in Hf.
  destruct (keeps_memget _ _ _ _ Em) as [Hh1 Hl1]. cbn [here last set_p] in Hh1, Hl1.
  assert (Hi41 : i <> 41) by (rewrite Ei; cbn [p set_p memory] in *; destruct (_ || _); lia).
  assert (Hi1 : dict_inv st1) by (unfold dict_inv in *; lia).
  clear Em Ei Hf.
  destruct (Z.land i 128 =? 0).
  - destruct (nth_error (instructions undef err) (Z.to_nat i)) as [[f|]|] eqn:En;
      try discriminate.
    destruct (Nat.eq_dec (Z.to_nat i) 48) as [E48|N48].
    + rewrite E48 in En. cbn in En. inversion En. subst f. intros H.
      destruct (resetBoard_cursors _ _ H). unfold dict_inv, MEM_SIZE. lia.
    + intros H. assert (N41 : Z.to_nat i <> 41%nat) by lia.
      destruct (keeps_instruction _ _ En N41 N48 _ _ _ H). unfold dict_inv in *. lia.
  - intros H.
    assert (Hk : keeps (pc <- gets p ;; nb <- memget_ err (i16 (pc + 1)) ;;
       (if negb (nb =? 0) then pc' <- gets p ;; rpush_ err (i16 (pc' + 1)) else mret tt) ;;
       pc2 <- gets p ;; lo <- memget_ err pc2 ;;
       modify (set_p (i16 (Z.lor (Z.land (Z.shiftl i 8) 32512) lo))))) by keep.
    destruct (Hk _ _ _ H). unfold dict_inv in *. lia.
Qed.

End Keeps.

Lemma keeps_error u n c : keeps (error u n c).
Proof.
  revert c. induction n as [|n IH]; intros c; cbn [error].
  - apply keeps_fail.
  - apply keeps_event. exact IH.
Qed.

(** a run that dispatches on no [forget] keeps the invariant *)
Lemma run_inv u n k st st' :
  dict_inv st -> forget_free u n k st = true -> vm_run u n k st = Some (tt, st') ->
  dict_inv st'.
Proof.
  revert st. induction k as [|k IH]; intros st Hi Hf; cbn [vm_run run]; [discriminate|].
  cbn [forget_free] in Hf. apply andb_true_iff in Hf as [Hf Hk].
  apply negb_true_iff, Z.eqb_neq in Hf.
  unfold mbind at 1. unfold vm_step in Hk.
  destruct (step u (error u n) st) as [[[] st1]|] eqn:E; [|discriminate].
  pose proof (step_inv u (error u n) (keeps_error u n) st st1 Hi Hf E) as Hi1.
  unfold mbind, gets. destruct (p st1 >=? 0).
  - apply IH; assumption.
  - intros H. inversion H. subst. exact Hi1.
Qed.

(** an immediate-frame header: the exec bit and the length [b - 128] *)
Lemma exec_header b :
  128 <= b < 256 ->
  (Z.land (i8 b) 128 =? 128) = true /\ i8 (Z.land (i8 b) 127) = b - 128.
Proof.
  intros Hb.
  pose proof (range_check
    (fun b => (Z.land (i8 b) 128 =? 128) && (i8 (Z.land (i8 b) 127) =? b - 128)) 128 128
    ltac:(vm_compute; reflexivity) b ltac:(lia)) as H.
  apply andb_true_iff in H as [H1 H2]. split; [exact H1 | apply Z.eqb_eq; exact H2].
Qed.

(** the intake of an immediate frame that fits in memory: the payload and
    the [ret] byte are stored, [here] is set back to [last], and the code is
    run from [last] with a return stack holding only -1 *)
Lemma frame_intake_immediate u n k b input st :
  128 <= b < 256 -> 0 <= here st -> here st + (b - 128) < MEM_SIZE ->
  (Z.to_nat (b - 128) <= length input)%nat ->
  exists st1, here st1 = last st /\ last st1 = last st /\ p st1 = last st /\
    vm_frame_intake u n k b input st =
      (vm_run u n k ;; mret (skipn (Z.to_nat (b - 128)) input)) st1.
Proof.
  intros Hb H0 H1 Hl. destruct (exec_header b Hb) as [Ex El].
  unfold vm_frame_intake, frame_intake. rewrite Ex, El.
  destruct (read_payload_ok (error u n) (Z.to_nat (b - 128)) input st H0 ltac:(lia) Hl)
    as (st1 & E & Hh & Hla & _).
  unfold mbind at 1. rewrite E.
  unfold mbind, here_pp, memset_, gets, modify, exec.
  rewrite Hh. destruct (Z.geb_spec (here st + Z.of_nat (Z.to_nat (b - 128))) MEM_SIZE);
    [lia|].
  unfold rpush_, mbind, modify. cbn [here set_here last set_r r set_memory].
  destruct (Z.geb_spec (-1) RETURN_STACK_SIZE); [unfold RETURN_STACK_SIZE in *; lia|].
  cbv iota beta.
  eexists. split; [|split; [|split]]; [| | |reflexivity]; cbn; lia.
Qed.



(** ** C10: [drop] *)

(** C10. [drop] (instruction 32) only decrements the data-stack pointer, from
    any state, the empty stack included: it cannot fail, raises no error and
    sends nothing.  On an empty stack the underflow is raised by the [pop]
    that follows, from the state [drop] left. *)
Theorem drop_unchecked u n :
  nth_error (instructions u (error u n)) 32 = Some (Some drop) /\
  (forall st, drop st = Some (tt, set_s (s st - 1) st) /\
     serial_out (set_s (s st - 1) st) = serial_out st) /\
  (forall st, s st < 1 ->
     (drop ;; pop u n) st =
     (error u n VM_ERROR_DATA_STACK_UNDERFLOW ;; mret u) (set_s (s st - 1) st)).
Proof.
  split; [reflexivity|]. split.
  - intros st. split; reflexivity.
  - intros st Hs. unfold mbind at 1. unfold drop, modify, pop, pop_. cbn [s set_s].
    destruct (Z.ltb_spec (s st - 1) 0); [reflexivity | lia].
Qed.

(** * Further properties of the instructions, the events and the frame
    intake *)

(** an opcode below 128 runs its entry of the instruction table with [p]
    already advanced *)
Lemma step_dispatch undef err st (i : Z) f :
  0 <= p st < MEM_SIZE -> memory st (p st) = i -> 0 <= i < 128 ->
  nth_error (instructions undef err) (Z.to_nat i) = Some (Some f) ->
  step undef err st = f (set_p (p st + 1) st).
Proof.
  intros Hp Hm Hi Hn. unfold step, p_pp, mbind, memget_, gets.
  rewrite i16_small by (unfold MEM_SIZE in *; lia).
  destruct (Z.ltb_spec (p st) 0); [lia|]. destruct (Z.geb_spec (p st) MEM_SIZE); [lia|].
  cbn [orb set_p memory]. rewrite Hm, land_128_low by lia. cbn [Z.eqb]. rewrite Hn.
  reflexivity.
Qed.

(** a table entry [binop f] *)
Lemma step_binop undef err st (i : Z) f :
  0 <= p st < MEM_SIZE -> memory st (p st) = i -> 0 <= i < 128 ->
  nth_error (instructions undef err) (Z.to_nat i) = Some (Some (binop undef err f)) ->
  1 <= s st ->
  replaces_top (step undef err) st (-1) (i16 (f (dstack st (s st - 1)) (dstack st (s st)))).
Proof.
  intros Hp Hm Hi Hn Hs. unfold replaces_top. rewrite (step_dispatch undef err st i _ Hp Hm Hi Hn).
  unfold binop, pop_, tos, set_tos, mbind, gets, modify. cbn [s set_p].
  destruct (Z.ltb_spec (s st) 0); [lia|].
  eexists. split; [reflexivity|]. cbn. unfold upd. rewrite Z.eqb_refl.
  repeat split; try lia. intros j Hj. destruct (Z.eqb_spec j (s st - 1)); [lia|reflexivity].
Qed.

(** a table entry [unop f] *)
Lemma step_unop undef err st (i : Z) f :
  0 <= p st < MEM_SIZE -> memory st (p st) = i -> 0 <= i < 128 ->
  nth_error (instructions undef err) (Z.to_nat i) = Some (Some (unop f)) ->
  replaces_top (step undef err) st 0 (i16 (f (dstack st (s st)))).
Proof.
  intros Hp Hm Hi Hn. unfold replaces_top. rewrite (step_dispatch undef err st i _ Hp Hm Hi Hn).
  unfold unop, tos, set_tos, mbind, gets, modify.
  eexists. split; [reflexivity|]. cbn. unfold upd. rewrite Z.eqb_refl.
  repeat split; try lia. intros j Hj. destruct (Z.eqb_spec j (s st)); [lia|reflexivity].
Qed.

(** X1. The arithmetic instructions 13..17 ([add], [sub], [mul], [div],
    [mod]) pop the top [b] and replace the new top [a] by the 16-bit wrap of
    [a + b], [a - b], [a * b], and, for [b <> 0], of the quotient truncated
    toward zero and of its remainder; [p] advances by one and nothing else
    changes. *)
Theorem alu_arith u n st a b :
  0 <= p st < MEM_SIZE -> 1 <= s st < DATA_STACK_SIZE -> dstack st (s st - 1) = a -> dstack st (s st) = b ->
  (memory st (p st) = 13 -> replaces_top (vm_step u n) st (-1) (i16 (a + b))) /\
  (memory st (p st) = 14 -> replaces_top (vm_step u n) st (-1) (i16 (a - b))) /\
  (memory st (p st) = 15 -> replaces_top (vm_step u n) st (-1) (i16 (a * b))) /\
  (memory st (p st) = 16 -> b <> 0 -> replaces_top (vm_step u n) st (-1) (i16 (Z.quot a b))) /\
  (memory st (p st) = 17 -> b <> 0 -> replaces_top (vm_step u n) st (-1) (i16 (Z.rem a b))).
Proof.
  intros Hp Hs Ha Hb. subst a b. unfold vm_step.
  repeat split; intros Hm; intros;
    (eapply step_binop; [exact Hp | exact Hm | lia | reflexivity | exact (proj1 Hs)]).
Qed.

(** [boolval]'s 0xFFFF stored into an [int16_t] cell is -1 *)
Lemma i16_boolval c : i16 (boolval c) = if c then -1 else 0.
Proof. destruct c; reflexivity. Qed.

(** a table entry [binop (boolval . g)] *)
Lemma step_cmp undef err st (i : Z) g :
  0 <= p st < MEM_SIZE -> memory st (p st) = i -> 0 <= i < 128 ->
  nth_error (instructions undef err) (Z.to_nat i) =
    Some (Some (binop undef err (fun t x => boolval (g t x)))) ->
  1 <= s st ->
  replaces_top (step undef err) st (-1)
    (if g (dstack st (s st - 1)) (dstack st (s st)) then -1 else 0).
Proof.
  intros Hp Hm Hi Hn Hs. rewrite <- i16_boolval.
  exact (step_binop undef err st i (fun t x => boolval (g t x)) Hp Hm Hi Hn Hs).
Qed.

(** X2. The bitwise instructions 18..21 replace the two top cells [a b] by
    the 16-bit [a land b], [a lor b], [a lxor b]; [shift] (21) shifts [a]
    left by [-b] for a negative [b] and right (arithmetically) by [b]
    otherwise, whatever the size of [b]. *)
Theorem alu_bitwise u n st a b :
  0 <= p st < MEM_SIZE -> 1 <= s st < DATA_STACK_SIZE -> dstack st (s st - 1) = a -> dstack st (s st) = b ->
  (memory st (p st) = 18 -> replaces_top (vm_step u n) st (-1) (i16 (Z.land a b))) /\
  (memory st (p st) = 19 -> replaces_top (vm_step u n) st (-1) (i16 (Z.lor a b))) /\
  (memory st (p st) = 20 -> replaces_top (vm_step u n) st (-1) (i16 (Z.lxor a b))) /\
  (memory st (p st) = 21 -> b < 0 ->
     replaces_top (vm_step u n) st (-1) (i16 (Z.shiftl a (- b)))) /\
  (memory st (p st) = 21 -> 0 <= b ->
     replaces_top (vm_step u n) st (-1) (i16 (Z.shiftr a b))).
Proof.
  intros Hp Hs Ha Hb. unfold vm_step.
  repeat split; intros Hm; intros.
  1-3: subst a b; eapply step_binop; [exact Hp | exact Hm | lia | reflexivity | exact (proj1 Hs)].
  - replace (i16 (Z.shiftl a (- b))) with (i16 (shift_op a b))
      by (unfold shift_op; destruct (Z.ltb_spec b 0); [reflexivity | lia]).
    subst a b. eapply step_binop; [exact Hp | exact Hm | lia | reflexivity | exact (proj1 Hs)].
  - replace (i16 (Z.shiftr a b)) with (i16 (shift_op a b))
      by (unfold shift_op; destruct (Z.ltb_spec b 0); [lia | reflexivity]).
    subst a b. eapply step_binop; [exact Hp | exact Hm | lia | reflexivity | exact (proj1 Hs)].
Qed.

(** X3. The comparisons 22..27 ([eq], [neq], [gt], [geq], [lt], [leq])
    replace the two top cells [a b] by -1 when [a] is respectively [=, <>,
    >, >=, <, <=] [b] and by 0 otherwise. *)
Theorem alu_compare u n st a b :
  0 <= p st < MEM_SIZE -> 1 <= s st < DATA_STACK_SIZE -> dstack st (s st - 1) = a -> dstack st (s st) = b ->
  (memory st (p st) = 22 -> replaces_top (vm_step u n) st (-1) (if a =? b then -1 else 0)) /\
  (memory st (p st) = 23 -> replaces_top (vm_step u n) st (-1) (if a =? b then 0 else -1)) /\
  (memory st (p st) = 24 -> replaces_top (vm_step u n) st (-1) (if a >? b then -1 else 0)) /\
  (memory st (p st) = 25 -> replaces_top (vm_step u n) st (-1) (if a >=? b then -1 else 0)) /\
  (memory st (p st) = 26 -> replaces_top (vm_step u n) st (-1) (if a <? b then -1 else 0)) /\
  (memory st (p st) = 27 -> replaces_top (vm_step u n) st (-1) (if a <=? b then -1 else 0)).
Proof.
  intros Hp Hs Ha Hb. subst a b. unfold vm_step.
  rewrite Z.gtb_ltb, Z.geb_leb.
  repeat split; intros Hm.
  - exact (step_cmp _ _ st 22 Z.eqb Hp Hm ltac:(lia) eq_refl (proj1 Hs)).
  - pose proof (step_cmp u (error u n) st 23 (fun t x => negb (t =? x)) Hp Hm ltac:(lia) eq_refl (proj1 Hs))
      as Hc.
    cbv beta in Hc. destruct (dstack st (s st - 1) =? dstack st (s st)); exact Hc.
  - exact (step_cmp _ _ st 24 (fun t x => x <? t) Hp Hm ltac:(lia) eq_refl (proj1 Hs)).
  - exact (step_cmp _ _ st 25 (fun t x => x <=? t) Hp Hm ltac:(lia) eq_refl (proj1 Hs)).
  - exact (step_cmp _ _ st 26 Z.ltb Hp Hm ltac:(lia) eq_refl (proj1 Hs)).
  - exact (step_cmp _ _ st 27 Z.leb Hp Hm ltac:(lia) eq_refl (proj1 Hs)).
Qed.

(** X4. The unary instructions 28..31 ([notb], [neg], [inc], [dec]) replace
    the top [a] by the 16-bit wrap of [lnot a], [-a], [a + 1], [a - 1],
    leaving [s] as it is and advancing [p]. *)
Theorem alu_unary u n st a :
  0 <= p st < MEM_SIZE -> 0 <= s st < DATA_STACK_SIZE -> dstack st (s st) = a ->
  (memory st (p st) = 28 -> replaces_top (vm_step u n) st 0 (i16 (Z.lnot a))) /\
  (memory st (p st) = 29 -> replaces_top (vm_step u n) st 0 (i16 (- a))) /\
  (memory st (p st) = 30 -> replaces_top (vm_step u n) st 0 (i16 (a + 1))) /\
  (memory st (p st) = 31 -> replaces_top (vm_step u n) st 0 (i16 (a - 1))).
Proof.
  intros Hp Hs Ha. subst a. unfold vm_step.
  repeat split; intros Hm.
  - exact (step_unop u (error u n) st 28 Z.lnot Hp Hm ltac:(lia) eq_refl).
  - exact (step_unop u (error u n) st 29 Z.opp Hp Hm ltac:(lia) eq_refl).
  - exact (step_unop u (error u n) st 30 (fun t => t + 1) Hp Hm ltac:(lia) eq_refl).
  - exact (step_unop u (error u n) st 31 (fun t => t - 1) Hp Hm ltac:(lia) eq_refl).
Qed.

Lemma zcheck_ok f lo k :
  zcheck f lo k = true -> forall z, lo <= z < lo + Z.of_nat k -> f z = true.
Proof.
  revert lo. induction k as [|k IH]; intros lo H z Hz; [lia|].
  cbn in H. apply andb_true_iff in H as [H1 H2].
  destruct (Z.eq_dec z lo) as [->|Hne]; [exact H1|]. apply (IH (lo + 1)); [exact H2 | lia].
Qed.

(** the two bytes [store16] writes, read back by [mem16], give the value *)
Lemma split16_join v :
  -32768 <= v < 32768 -> Z.lor (i16 (Z.shiftl (u8 (Z.shiftr v 8)) 8)) (u8 v) = v.
Proof.
  intros Hv. apply Z.eqb_eq.
  apply (zcheck_ok (fun v => Z.lor (i16 (Z.shiftl (u8 (Z.shiftr v 8)) 8)) (u8 v) =? v)
           (-32768) (Z.to_nat 65536)); [vm_compute; reflexivity | rewrite Z2Nat.id; lia].
Qed.

(** [mem16] of two bytes is the big-endian signed 16-bit value *)
Lemma join16 hi lo :
  0 <= hi < 256 -> 0 <= lo < 256 -> Z.lor (i16 (Z.shiftl hi 8)) lo = i16 (256 * hi + lo).
Proof.
  intros Hh Hl.
  set (f := fun hi => forallb (fun lo => Z.lor (i16 (Z.shiftl hi 8)) lo =? i16 (256 * hi + lo))
                        (map (fun i => 0 + Z.of_nat i) (seq 0 256))).
  assert (Hf : f hi = true).
  { apply (range_check f 0 256); [vm_compute; reflexivity | lia]. }
  apply Z.eqb_eq. exact (range_check _ 0 256 Hf lo ltac:(lia)).
Qed.

(** X5. [store16] pops the address [a] and the value [v], writes the high
    byte of [v] at [a] and the low byte at [a + 1], touching no other byte;
    [mem16] (the reader of [fetch16] and [lit16]) at [a] then gives back
    [v]. *)
Theorem store16_mem16 u n st a v :
  1 <= s st < DATA_STACK_SIZE -> dstack st (s st) = a -> dstack st (s st - 1) = v ->
  0 <= a -> a + 1 < MEM_SIZE -> -32768 <= v < 32768 ->
  exists st', store16 u (error u n) st = Some (tt, st') /\
    s st' = s st - 2 /\
    mem16 (error u n) a st' = Some (v, st') /\
    memory st' a = u8 (Z.shiftr v 8) /\ memory st' (a + 1) = u8 v /\
    (forall x, x <> a -> x <> a + 1 -> memory st' x = memory st x) /\
    serial_out st' = serial_out st.
Proof.
  intros Hs Ha Hv H0 H1 Hvr.
  unfold store16, pop_, memset_, mbind, modify.
  destruct (Z.ltb_spec (s st) 0); [lia|]. cbn [s set_s dstack].
  destruct (Z.ltb_spec (s st - 1) 0); [lia|]. cbn [s set_s dstack].
  rewrite Ha, Hv, (i16_small (a + 1)) by (unfold MEM_SIZE in *; lia).
  destruct (Z.geb_spec a MEM_SIZE); [lia|]. destruct (Z.geb_spec (a + 1) MEM_SIZE); [lia|].
  eexists. split; [reflexivity|].
  cbn [s set_s memory set_memory serial_out]. unfold upd.
  split; [lia|]. split; [|split; [|split; [|split]]].
  - unfold mem16, memget_, mbind, gets, mret.
    rewrite (i16_small (a + 1)) by (unfold MEM_SIZE in *; lia).
    destruct (Z.ltb_spec a 0); [lia|]. destruct (Z.geb_spec a MEM_SIZE); [lia|].
    destruct (Z.ltb_spec (a + 1) 0); [lia|]. destruct (Z.geb_spec (a + 1) MEM_SIZE); [lia|].
    cbn [orb memory set_memory set_s]. rewrite !Z.eqb_refl.
    destruct (Z.eqb_spec a (a + 1)); [lia|].
    rewrite split16_join by exact Hvr. reflexivity.
  - rewrite Z.eqb_refl. destruct (Z.eqb_spec a (a + 1)); [lia|reflexivity].
  - rewrite Z.eqb_refl. reflexivity.
  - intros x Hx1 Hx2. destruct (Z.eqb_spec x (a + 1)); [lia|].
    destruct (Z.eqb_spec x a); [lia|]. reflexivity.
  - reflexivity.
Qed.

(** X6. [lit16] pushes the signed big-endian 16-bit value of its two operand
    bytes and moves [p] past both of them. *)
Theorem lit16_big_endian u n st hi lo :
  0 <= p st -> p st + 1 < MEM_SIZE ->
  memory st (p st) = hi -> memory st (p st + 1) = lo -> 0 <= hi < 256 -> 0 <= lo < 256 ->
  -1 <= s st < DATA_STACK_SIZE - 1 ->
  exists st', lit16 (error u n) st = Some (tt, st') /\
    s st' = s st + 1 /\ dstack st' (s st') = i16 (256 * hi + lo) /\ p st' = p st + 2 /\
    serial_out st' = serial_out st.
Proof.
  intros H0 H1 Eh El Hh Hl Hs.
  unfold lit16, p_pp, mem16, memget_, push_, mbind, gets, mret, modify.
  cbn [p set_p memory].
  rewrite !(i16_small (p st + 1)) by (unfold MEM_SIZE in *; lia).
  destruct (Z.ltb_spec (p st) 0); [lia|]. destruct (Z.geb_spec (p st) MEM_SIZE); [lia|].
  destruct (Z.ltb_spec (p st + 1) 0); [lia|].
  destruct (Z.geb_spec (p st + 1) MEM_SIZE); [lia|].
  cbn [orb s set_p memory dstack]. rewrite Eh, El.
  destruct (Z.geb_spec (s st) DATA_STACK_SIZE); [unfold DATA_STACK_SIZE in *; lia|].
  rewrite join16 by assumption.
  assert (Hr : -32768 <= i16 (256 * hi + lo) < 32768).
  { unfold i16. pose proof (Z.mod_pos_bound (256 * hi + lo + 32768) 65536). lia. }
  eexists. split; [reflexivity|].
  cbn [s set_s set_p p dstack set_dstack serial_out]. unfold upd. rewrite Z.eqb_refl.
  rewrite (i16_small (i16 (256 * hi + lo))), (i16_small (p st + 1 + 1))
    by (unfold MEM_SIZE in *; lia).
  repeat split; lia.
Qed.

(** X7. [dup] with room on the stack pushes a copy of the top cell. *)
Theorem dup_copies_top u n st :
  0 <= s st < DATA_STACK_SIZE - 1 ->
  exists st', dup (error u n) st = Some (tt, st') /\
    s st' = s st + 1 /\ dstack st' (s st') = i16 (dstack st (s st)) /\
    (forall i, i <> s st' -> dstack st' i = dstack st i) /\ serial_out st' = serial_out st.
Proof.
  intros Hs. unfold dup, tos, push_, mbind, gets.
  destruct (Z.geb_spec (s st) DATA_STACK_SIZE); [lia|].
  eexists. split; [reflexivity|]. cbn [s set_s dstack set_dstack serial_out]. unfold upd.
  rewrite Z.eqb_refl. repeat split; try lia.
  intros i Hi. destruct (Z.eqb_spec i (s st + 1)); [lia|reflexivity].
Qed.

(** X8. [swap] exchanges the two top cells and nothing else; swapping twice
    restores the stack. *)
Theorem swap_exchanges st :
  1 <= s st < DATA_STACK_SIZE ->
  exists st', swap st = Some (tt, st') /\ s st' = s st /\
    dstack st' (s st) = dstack st (s st - 1) /\ dstack st' (s st - 1) = dstack st (s st) /\
    (forall i, i <> s st -> i <> s st - 1 -> dstack st' i = dstack st i) /\
    (exists st'', swap st' = Some (tt, st'') /\ s st'' = s st /\
       forall i, dstack st'' i = dstack st i).
Proof.
  intros Hs. unfold swap, modify.
  eexists. split; [reflexivity|]. cbn [s dstack set_dstack]. unfold upd.
  rewrite Z.eqb_refl. destruct (Z.eqb_spec (s st) (s st - 1)); [lia|].
  split; [reflexivity|]. split; [reflexivity|]. split; [rewrite Z.eqb_refl; reflexivity|].
  split.
  - intros i H1 H2. destruct (Z.eqb_spec i (s st - 1)); [lia|].
    destruct (Z.eqb_spec i (s st)); [lia|reflexivity].
  - eexists. split; [reflexivity|]. cbn [s dstack set_dstack]. split; [reflexivity|].
    intros i. rewrite !Z.eqb_refl. destruct (Z.eqb_spec (s st) (s st - 1)); [lia|].
    destruct (Z.eqb_spec i (s st - 1)); [subst; reflexivity|].
    destruct (Z.eqb_spec i (s st)); [subst; reflexivity|reflexivity].
Qed.

(** X9. [pick] pops [k] (with [0 <= k] below the remaining depth) and pushes
    a copy of the cell [k] places below the new top. *)
Theorem pick_copies u n st k :
  1 <= s st < DATA_STACK_SIZE -> dstack st (s st) = k -> 0 <= k <= s st - 1 ->
  exists st', pick u (error u n) st = Some (tt, st') /\ s st' = s st /\
    dstack st' (s st) = i16 (dstack st (s st - 1 - k)) /\
    (forall i, i <> s st -> dstack st' i = dstack st i) /\ serial_out st' = serial_out st.
Proof.
  intros Hs Hk Hr. unfold pick, pop_, push_, mbind, gets.
  destruct (Z.ltb_spec (s st) 0); [lia|]. cbn [s set_s dstack]. rewrite Hk.
  destruct (Z.geb_spec (s st - 1) DATA_STACK_SIZE); [lia|].
  eexists. split; [reflexivity|]. cbn [s set_s dstack set_dstack serial_out]. unfold upd.
  replace (s st - 1 + 1) with (s st) by lia. rewrite Z.eqb_refl.
  repeat split; try lia.
  intros i Hi. destruct (Z.eqb_spec i (s st)); [lia|reflexivity].
Qed.

(** the cell moves of [roll]'s loop *)
Lemma roll_shift_spec k i d x :
  roll_shift k i d x = if (i <=? x) && (x <? i + Z.of_nat k) then d (x + 1) else d x.
Proof.
  revert i d. induction k as [|k IH]; intros i d.
  - cbn. destruct (Z.leb_spec i x); destruct (Z.ltb_spec x (i + 0)); cbn; try reflexivity; lia.
  - cbn [roll_shift]. rewrite IH. unfold upd.
    destruct (Z.leb_spec (i + 1) x); destruct (Z.ltb_spec x (i + 1 + Z.of_nat k));
      destruct (Z.leb_spec i x); destruct (Z.ltb_spec x (i + Z.of_nat (S k)));
      destruct (Z.eqb_spec (x + 1) i); destruct (Z.eqb_spec x i);
      cbn; try reflexivity; try lia.
    subst. reflexivity.
Qed.

(** X10. [roll] pops [k] and moves the cell [k] places below the new top to
    the top, shifting the [k] cells above it down by one; cells outside that
    window are unchanged. *)
Theorem roll_rotates u n st k :
  1 <= s st < DATA_STACK_SIZE -> dstack st (s st) = k -> 0 <= k <= s st - 1 ->
  exists st', roll u (error u n) st = Some (tt, st') /\ s st' = s st - 1 /\
    dstack st' (s st') = dstack st (s st' - k) /\
    (forall j, 0 <= j < k -> dstack st' (s st' - k + j) = dstack st (s st' - k + j + 1)) /\
    (forall i, i < s st' - k \/ s st' < i -> dstack st' i = dstack st i) /\
    serial_out st' = serial_out st.
Proof.
  intros Hs Hk Hr. unfold roll, pop_, mbind, modify.
  destruct (Z.ltb_spec (s st) 0); [lia|]. cbn [s set_s dstack]. rewrite Hk.
  eexists. split; [reflexivity|]. cbn [s set_s dstack set_dstack serial_out].
  split; [reflexivity|]. unfold upd. rewrite Z.eqb_refl.
  split; [reflexivity|]. split; [|split].
  - intros j Hj. destruct (Z.eqb_spec (s st - 1 - k + j) (s st - 1)); [lia|].
    rewrite roll_shift_spec, Z2Nat.id by lia.
    destruct (Z.leb_spec (s st - 1 - k) (s st - 1 - k + j)); [|lia].
    destruct (Z.ltb_spec (s st - 1 - k + j) (s st - 1 - k + k)); [reflexivity|lia].
  - intros i Hi. destruct (Z.eqb_spec i (s st - 1)); [lia|].
    rewrite roll_shift_spec, Z2Nat.id by lia.
    destruct (Z.leb_spec (s st - 1 - k) i); destruct (Z.ltb_spec i (s st - 1 - k + k));
      cbn; try reflexivity; lia.
  - reflexivity.
Qed.

Lemma i16_i16 z : i16 (i16 z) = i16 z.
Proof.
  apply i16_small. unfold i16. pose proof (Z.mod_pos_bound (z + 32768) 65536). lia.
Qed.

(** X11. [pushr] followed by [popr], with room on the return stack, gives
    back the data stack (the top as a 16-bit value) and leaves the return
    stack depth as it was. *)
Theorem pushr_popr_roundtrip u n st :
  0 <= s st < DATA_STACK_SIZE -> -1 <= r st < RETURN_STACK_SIZE - 1 ->
  exists st', (pushr u (error u n) ;; popr u (error u n)) st = Some (tt, st') /\
    s st' = s st /\ r st' = r st /\ dstack st' (s st) = i16 (dstack st (s st)) /\
    (forall i, i <> s st -> dstack st' i = dstack st i) /\ serial_out st' = serial_out st.
Proof.
  intros Hs Hr. unfold pushr, popr, pop_, rpush_, rpop_, push_, mbind.
  destruct (Z.ltb_spec (s st) 0); [lia|]. cbn [s set_s r dstack].
  destruct (Z.geb_spec (r st) RETURN_STACK_SIZE); [unfold RETURN_STACK_SIZE in *; lia|].
  cbn [r set_r set_rstack rstack s]. destruct (Z.ltb_spec (r st + 1) 0); [lia|].
  cbn [r set_r set_rstack rstack s set_s]. unfold DATA_STACK_SIZE, RETURN_STACK_SIZE in *.
  destruct (Z.geb_spec (s st - 1) 4); [lia|].
  eexists. split; [reflexivity|]. cbn [s set_s r set_r dstack set_dstack serial_out rstack set_rstack].
  unfold upd. replace (s st - 1 + 1) with (s st) by lia. rewrite !Z.eqb_refl, i16_i16.
  repeat split; try lia.
  intros i Hi. destruct (Z.eqb_spec i (s st)); [lia|reflexivity].
Qed.

Lemma i16_range z : -32768 <= i16 z < 32768.
Proof. unfold i16. pose proof (Z.mod_pos_bound (z + 32768) 65536). lia. Qed.

(** X12. [quote] reads the length operand [len], pushes the address of the
    code after the operand and jumps over [len] bytes. *)
Theorem quote_skips u n st len :
  0 <= p st < MEM_SIZE -> memory st (p st) = len -> 0 <= len < 256 ->
  -1 <= s st < DATA_STACK_SIZE - 1 ->
  exists st', quote (error u n) st = Some (tt, st') /\
    s st' = s st + 1 /\ dstack st' (s st') = p st + 1 /\ p st' = p st + 1 + len /\
    r st' = r st /\ serial_out st' = serial_out st.
Proof.
  intros Hp Hm Hl Hs. unfold quote, p_pp, memget_, push_, mbind, gets, modify, mret.
  rewrite (i16_small (p st + 1)) by (unfold MEM_SIZE in *; lia).
  destruct (Z.ltb_spec (p st) 0); [lia|]. destruct (Z.geb_spec (p st) MEM_SIZE); [lia|].
  cbn [orb s set_p p memory]. rewrite Hm.
  destruct (Z.geb_spec (s st) DATA_STACK_SIZE); [unfold DATA_STACK_SIZE in *; lia|].
  eexists. split; [reflexivity|].
  cbn [s set_s set_p p dstack set_dstack serial_out r]. unfold upd. rewrite Z.eqb_refl.
  rewrite !i16_small by (unfold MEM_SIZE in *; lia).
  repeat split; lia.
Qed.

(** X13. [choice] pops the false quotation [f], the true quotation [t] and
    the condition, pushes the return address on the return stack and jumps
    to [f] when the condition is 0 and to [t] otherwise. *)
Theorem choice_calls u n st :
  2 <= s st < DATA_STACK_SIZE -> -1 <= r st < RETURN_STACK_SIZE - 1 ->
  exists st', choice u (error u n) st = Some (tt, st') /\
    s st' = s st - 3 /\ r st' = r st + 1 /\ rstack st' (r st') = i16 (p st) /\
    p st' = (if dstack st (s st - 2) =? 0 then dstack st (s st) else dstack st (s st - 1)) /\
    serial_out st' = serial_out st.
Proof.
  intros Hs Hr. unfold choice, pop_, rpush_, mbind, gets, modify.
  destruct (Z.ltb_spec (s st) 0); [lia|]. cbn [s set_s dstack].
  destruct (Z.ltb_spec (s st - 1) 0); [lia|]. cbn [s set_s dstack r p].
  destruct (Z.geb_spec (r st) RETURN_STACK_SIZE); [unfold RETURN_STACK_SIZE in *; lia|].
  cbn [s set_s dstack set_r set_rstack]. destruct (Z.ltb_spec (s st - 1 - 1) 0); [lia|].
  eexists. split; [reflexivity|].
  cbn [s set_s set_p p dstack r set_r rstack set_rstack serial_out]. unfold upd.
  rewrite Z.eqb_refl. replace (s st - 1 - 1) with (s st - 2) by lia.
  repeat split; lia.
Qed.

(** X14. [chooseIf] pops the quotation [t] and the condition; for a non-zero
    condition it pushes the return address and jumps to [t], for 0 it only
    drops the two cells. *)
Theorem chooseIf_branches u n st :
  1 <= s st < DATA_STACK_SIZE -> -1 <= r st < RETURN_STACK_SIZE - 1 ->
  exists st', chooseIf u (error u n) st = Some (tt, st') /\
    s st' = s st - 2 /\ serial_out st' = serial_out st /\
    (if dstack st (s st - 1) =? 0
     then p st' = p st /\ r st' = r st
     else p st' = dstack st (s st) /\ r st' = r st + 1 /\ rstack st' (r st') = i16 (p st)).
Proof.
  intros Hs Hr. unfold chooseIf, pop_, rpush_, mbind, gets, modify, mret.
  destruct (Z.ltb_spec (s st) 0); [lia|]. cbn [s set_s dstack].
  destruct (Z.ltb_spec (s st - 1) 0); [lia|]. cbn [s set_s dstack].
  destruct (Z.eqb_spec (dstack st (s st - 1)) 0) as [E|E]; cbn [negb].
  - eexists. split; [reflexivity|]. cbn. repeat split; lia.
  - cbn [r set_s p]. destruct (Z.geb_spec (r st) RETURN_STACK_SIZE); [lia|].
    eexists. split; [reflexivity|].
    cbn [s set_s set_r set_rstack set_p serial_out p r rstack]. unfold upd.
    rewrite Z.eqb_refl. repeat split; lia.
Qed.

(** X15. [next] decrements the loop counter on the return stack: while the
    decremented count is positive it stores it back and jumps back by [rel +
    2] from the operand; otherwise it drops the counter and steps over the
    operand. *)
Theorem next_counts u n st c rel :
  0 <= r st < RETURN_STACK_SIZE -> rstack st (r st) = c -> 0 <= p st < MEM_SIZE - 1 ->
  memory st (p st) = rel -> 0 <= rel < 256 ->
  exists st', next u (error u n) st = Some (tt, st') /\ serial_out st' = serial_out st /\
    (i16 (c - 1) > 0 ->
       r st' = r st /\ rstack st' (r st) = i16 (c - 1) /\ p st' = i16 (p st + 1 - (rel + 2))) /\
    (i16 (c - 1) <= 0 -> r st' = r st - 1 /\ p st' = p st + 1).
Proof.
  intros Hr Hc Hp Hm Hrel. unfold next, rpop_, p_pp, memget_, rpush_, mbind, gets, modify, mret.
  destruct (Z.ltb_spec (r st) 0); [lia|]. cbn [r set_r rstack p set_p].
  rewrite Hc, (i16_small (p st + 1)) by (unfold MEM_SIZE in *; lia).
  destruct (Z.ltb_spec (p st) 0); [lia|]. destruct (Z.geb_spec (p st) MEM_SIZE); [lia|].
  cbn [orb memory set_p set_r]. rewrite Hm.
  destruct (Z.gtb_spec (i16 (c - 1)) 0).
  - cbn [r set_r set_p rstack].
    destruct (Z.geb_spec (r st - 1) RETURN_STACK_SIZE); [unfold RETURN_STACK_SIZE in *; lia|].
    eexists. split; [reflexivity|].
    cbn [r set_r rstack set_rstack p set_p serial_out]. unfold upd.
    replace (r st - 1 + 1) with (r st) by lia. rewrite Z.eqb_refl, i16_i16.
    repeat split; try lia.
  - eexists. split; [reflexivity|]. cbn [r set_r p set_p serial_out].
    repeat split; lia.
Qed.

(** [(uint8_t)(int8_t)x] is [(uint8_t)x] *)
Lemma u8_i8 z : u8 (i8 z) = u8 z.
Proof.
  unfold u8, i8. rewrite (Z.mod_eq (z + 128) 256) by lia.
  replace (z + 128 - 256 * ((z + 128) / 256) - 128) with (z + (- ((z + 128) / 256)) * 256) by lia.
  apply Z_mod_plus_full.
Qed.

(** [eventOp], with the facts about memory and the return stack that a
    caller running further code needs *)
Lemma eventOp_ok u n st :
  1 <= s st < DATA_STACK_SIZE -> -32768 <= dstack st (s st - 1) < 32768 ->
  0 <= here st -> here st + 3 <= MEM_SIZE ->
  exists st', eventOp u (error u n) st = Some (tt, st') /\
    serial_out st' = serial_out st ++ spec_scalar_event (u8 (dstack st (s st))) (dstack st (s st - 1)) /\
    s st' = s st - 2 /\ here st' = here st /\ last st' = last st /\ p st' = p st /\
    r st' = r st /\ rstack st' = rstack st /\
    (forall x, x < here st \/ here st + 3 <= x -> memory st' x = memory st x).
Proof.
  intros Hs Hv H0 H1. unfold eventOp, pop_, mbind.
  destruct (Z.ltb_spec (s st) 0); [lia|]. cbn [s set_s dstack].
  destruct (Z.ltb_spec (s st - 1) 0); [lia|]. cbn [s set_s dstack].
  rewrite u8_i8.
  assert (Hid : 0 <= u8 (dstack st (s st)) < 256) by (unfold u8; apply Z.mod_pos_bound; lia).
  set (st1 := set_s (s st - 1 - 1) (set_s (s st - 1) st)).
  destruct (event_ok u n _ _ st1 Hid Hv) as (st' & E & O & Hm & Hs' & Hh & Hl & Hp & Hr & Hrs & _);
    [cbn; lia .. |].
  exists st'. fold (event u n). rewrite E. cbn in O, Hm, Hs', Hh, Hl, Hp, Hr, Hrs.
  repeat split; try lia; try congruence.
  intros x Hx. apply Hm. exact Hx.
Qed.

(** X16. [eventOp] pops the id (sent as its low byte) and the value and
    sends the scalar event [len, id, body]; it leaves [here], [last], [p]
    and the return stack as they were and memory outside the three scratch
    bytes at [here] unchanged. *)
Theorem eventOp_sends u n st :
  1 <= s st < DATA_STACK_SIZE -> -32768 <= dstack st (s st - 1) < 32768 ->
  0 <= here st -> here st + 3 <= MEM_SIZE ->
  exists st', eventOp u (error u n) st = Some (tt, st') /\
    serial_out st' = serial_out st ++ spec_scalar_event (u8 (dstack st (s st))) (dstack st (s st - 1)) /\
    s st' = s st - 2 /\ here st' = here st /\ last st' = last st /\ p st' = p st /\
    r st' = r st /\ rstack st' = rstack st /\
    (forall x, x < here st \/ here st + 3 <= x -> memory st' x = memory st x).
Proof. exact (eventOp_ok u n st). Qed.


(** X17. Packed events: [eventHeader; eventFooter] sends [0, id];
    [eventHeader; eventBody8; eventBody16; eventFooter] sends [3, id, b, hi
    v, lo v]; [eventFooter] with no byte after [here] sends the single byte
    255 (the length -1 as a byte). *)
Theorem packed_event u n st :
  0 <= here st -> here st + 4 <= MEM_SIZE ->
  (0 <= s st < DATA_STACK_SIZE ->
   exists st', (eventHeader_ u (error u n) ;; eventFooter_ (error u n)) st = Some (tt, st') /\
     serial_out st' = serial_out st ++ [0; u8 (dstack st (s st))] /\ s st' = s st - 1) /\
  (2 <= s st < DATA_STACK_SIZE ->
   exists st', (eventHeader_ u (error u n) ;; eventBody8_ u (error u n) ;;
                eventBody16_ u (error u n) ;; eventFooter_ (error u n)) st = Some (tt, st') /\
     serial_out st' = serial_out st ++
       [3; u8 (dstack st (s st)); u8 (dstack st (s st - 1));
        u8 (Z.shiftr (dstack st (s st - 2)) 8); u8 (dstack st (s st - 2))] /\
     s st' = s st - 3) /\
  (eventBuffer st = here st ->
   eventFooter_ (error u n) st = Some (tt, set_serial_out (serial_out st ++ [255]) st)).
Proof.
  intros H0 H1. split; [|split].
  - intros Hs. unfold eventHeader_, eventFooter_. crunch.
    eexists. split; [reflexivity|]. cbn. split; [|lia].
    rewrite <- app_assoc. cbn. repeat (zcase; try lia). repeat f_equal; lia.
  - intros Hs. unfold eventHeader_, eventBody8_, eventBody16_, eventFooter_. crunch.
    replace (Z.to_nat (here st + 1 + 1 + 1 + 1 - here st)) with 4%nat by lia. crunch.
    eexists. split; [reflexivity|]. cbn -[u8 i16 Z.shiftr]. split; [|lia].
    rewrite <- !app_assoc. cbn -[u8 i16 Z.shiftr]. repeat (zcase; try lia).
    replace (s st - 1 - 1) with (s st - 2) by lia.
    replace (here st + 1 + 1 + 1 + 1 - here st - 1) with 3 by lia. reflexivity.
  - intros He. unfold eventFooter_, mbind, gets, serial_write, modify. rewrite He.
    replace (u8 (here st - here st)) with 0 by (rewrite Z.sub_diag; reflexivity).
    reflexivity.
Qed.

(** X18. [setup] resets the board and sends the boot event [0, 255] from any
    state, leaving the data stack empty and [here = last = 0]. *)
Theorem setup_boot_event u n st :
  exists st', setup u n st = Some (tt, st') /\
    serial_out st' = serial_out st ++ [0; 255] /\
    s st' = -1 /\ here st' = 0 /\ last st' = 0 /\ p st' = p st /\ r st' = r st.
Proof.
  unfold setup, resetBoard, clr, mbind, modify.
  set (st1 := set_loopIterations 0 (set_loopword (-1) (set_here 0 (set_last 0 (set_s (-1) st))))).
  destruct (event_ok u n BOOT_EVENT_ID 0 st1) as (st' & E & Hser & _ & Hs & Hh & Hl & Hp & Hr & _);
    [unfold BOOT_EVENT_ID, MEM_SIZE, DATA_STACK_SIZE; cbn; lia ..|].
  exists st'. split; [exact E|]. rewrite Hser, Hs, Hh, Hl, Hp, Hr.
  unfold spec_scalar_event, BOOT_EVENT_ID. cbn. repeat split.
Qed.

(** one turn of [run]'s loop that does not leave it *)
Lemma run_more undef err k st st1 :
  step undef err st = Some (tt, st1) -> 0 <= p st1 ->
  run undef err (S k) st = run undef err k st1.
Proof.
  intros E H. cbn [run]. unfold mbind, gets. rewrite E.
  destruct (Z.geb_spec (p st1) 0); [reflexivity | lia].
Qed.

(** the last turn of [run]'s loop *)
Lemma run_stop undef err k st st1 :
  step undef err st = Some (tt, st1) -> p st1 < 0 ->
  run undef err (S k) st = Some (tt, st1).
Proof.
  intros E H. cbn [run]. unfold mbind, gets, mret. rewrite E.
  destruct (Z.geb_spec (p st1) 0); [lia | reflexivity].
Qed.

(** opcode 1, [lit8] *)
Lemma step_lit8 undef err st b :
  0 <= p st -> p st + 1 < MEM_SIZE -> memory st (p st) = 1 -> memory st (p st + 1) = b ->
  -1 <= s st < DATA_STACK_SIZE ->
  step undef err st =
  Some (tt, set_dstack (upd (dstack st) (s st + 1) (i16 b)) (set_s (s st + 1) (set_p (p st + 2) st))).
Proof.
  intros H0 H1 E1 Eb Hs.
  rewrite (step_dispatch undef err st 1 (lit8 err)) by (auto; lia).
  unfold lit8, p_pp, memget_, push_, mbind, gets. cbn [p set_p memory s].
  destruct (Z.ltb_spec (p st + 1) 0); [lia|]. destruct (Z.geb_spec (p st + 1) MEM_SIZE); [lia|].
  cbn [orb memory set_p s]. rewrite Eb. destruct (Z.geb_spec (s st) DATA_STACK_SIZE); [lia|].
  rewrite (i16_small (p st + 1 + 1)) by (unfold MEM_SIZE in *; lia).
  replace (p st + 1 + 1) with (p st + 2) by lia. reflexivity.
Qed.

(** opcode 0, [ret] *)
Lemma step_ret undef err st :
  0 <= p st < MEM_SIZE -> memory st (p st) = 0 -> 0 <= r st ->
  step undef err st = Some (tt, set_p (rstack st (r st)) (set_r (r st - 1) st)).
Proof.
  intros Hp E Hr.
  rewrite (step_dispatch undef err st 0 (ret undef err)) by (auto; lia).
  unfold ret, rpop_, mbind, modify. cbn [r set_p rstack].
  destruct (Z.ltb_spec (r st) 0); [lia|]. reflexivity.
Qed.

(** X19. The immediate frame [0x85; 1 x 1 id 8] ([lit8 x; lit8 id; eventOp])
    received with [here = last] and an empty stack runs to completion, sends
    the scalar event of [id] and [x], returns the rest of the input and
    leaves [here], [last] and the stacks as they were. *)
Theorem immediate_event_frame u n k st x id rest :
  0 <= x < 256 -> 0 <= id < 256 -> here st = last st -> 0 <= here st ->
  here st + 6 <= MEM_SIZE -> s st = -1 -> (4 <= k)%nat ->
  exists st', vm_frame_intake u n k 133 ([1; x; 1; id; 8] ++ rest) st = Some (rest, st') /\
    serial_out st' = serial_out st ++ spec_scalar_event id x /\
    s st' = -1 /\ here st' = here st /\ last st' = last st /\ p st' = -1 /\ r st' = -1.
Proof.
  intros Hx Hid Ehl H0 H6 Hs Hk.
  unfold vm_frame_intake, frame_intake.
  change (Z.land (i8 133) 128 =? 128) with true.
  change (Z.to_nat (i8 (Z.land (i8 133) 127))) with 5%nat.
  destruct (read_payload_ok (error u n) 5 ([1; x; 1; id; 8] ++ rest) st H0 ltac:(cbn; lia)
              ltac:(cbn; lia))
    as (st1 & E1 & Hh1 & Hl1 & Hin & Hout & Hs1 & _ & Ho1).
  unfold mbind at 1. rewrite E1. cbn [skipn app].
  set (h := here st) in *.
  unfold mbind, here_pp, memset_, gets, modify, exec.
  change (Z.of_nat 5) with 5 in Hh1, Hin, Hout. rewrite Hh1.
  rewrite (i16_small (h + 5 + 1)) by (unfold MEM_SIZE in *; lia).
  destruct (Z.geb_spec (h + 5) MEM_SIZE); [unfold MEM_SIZE in *; lia|].
  unfold rpush_, mbind, modify. cbn [here set_here last set_r r set_memory memory].
  destruct (Z.geb_spec (-1) RETURN_STACK_SIZE); [unfold RETURN_STACK_SIZE in *; lia|].
  cbv iota beta.
  match goal with |- context [run _ _ k ?S] => set (st2 := S) end.
  assert (Hm : forall j, 0 <= j < 5 ->
            memory st2 (h + j) = nth (Z.to_nat j) [1; x; 1; id; 8] 0).
  { intros j Hj. cbn [st2 memory set_p set_rstack set_r set_here set_memory]. unfold upd.
    destruct (Z.eqb_spec (h + j) (h + 5)); [lia|]. rewrite Hin by lia.
    assert (Ej : j = 0 \/ j = 1 \/ j = 2 \/ j = 3 \/ j = 4) by lia.
    destruct Ej as [-> | [-> | [-> | [-> | ->]]]]; cbv -[u8]; apply u8_small; lia. }
  assert (Hm5 : memory st2 (h + 5) = 0).
  { cbn [st2 memory set_p set_rstack set_r set_here set_memory]. unfold upd.
    rewrite Z.eqb_refl. reflexivity. }
  assert (Hp2 : p st2 = h) by (cbn [st2 p set_p]; congruence).
  assert (Hs2 : s st2 = -1) by (cbn [st2 s set_p set_rstack set_r set_here set_memory]; congruence).
  assert (Hr2 : r st2 = 0) by reflexivity.
  assert (Hrs2 : rstack st2 0 = -1) by reflexivity.
  assert (Hh2 : here st2 = h) by (cbn [st2 here set_p set_rstack set_r set_here]; congruence).
  assert (Hl2 : last st2 = h) by (cbn [st2 last set_p set_rstack set_r set_here set_memory]; congruence).
  assert (Ho2 : serial_out st2 = serial_out st) by (cbn [st2 serial_out set_p set_rstack set_r set_here set_memory]; congruence).
  clearbody st2.
  destruct k as [|[|[|[|k]]]]; try lia.
  (* lit8 x *)
  pose proof (step_lit8 u (error u n) st2 x ltac:(lia) ltac:(unfold MEM_SIZE in *; lia)
     ltac:(rewrite Hp2, <- (Z.add_0_r h) at 1; apply (Hm 0); lia)
     ltac:(rewrite Hp2; apply (Hm 1); lia) ltac:(unfold DATA_STACK_SIZE; lia)) as E3.
  set (st3 := set_dstack _ _) in E3.
  rewrite (run_more _ _ _ _ _ E3) by (cbn [st3 p set_dstack set_s set_p]; lia).
  (* lit8 id *)
  pose proof (step_lit8 u (error u n) st3 id ltac:(cbn [st3 p set_dstack set_s set_p]; lia)
     ltac:(cbn [st3 p set_dstack set_s set_p]; unfold MEM_SIZE in *; lia)
     ltac:(cbn [st3 p memory set_dstack set_s set_p]; rewrite Hp2; apply (Hm 2); lia)
     ltac:(cbn [st3 p memory set_dstack set_s set_p]; rewrite Hp2;
           replace (h + 2 + 1) with (h + 3) by lia; apply (Hm 3); lia)
     ltac:(cbn [st3 s set_dstack set_s set_p]; unfold DATA_STACK_SIZE; lia)) as E4.
  set (st4 := set_dstack _ _) in E4.
  rewrite (run_more _ _ _ _ _ E4) by (cbn [st4 st3 p set_dstack set_s set_p]; lia).
  assert (F4 : p st4 = h + 4 /\ s st4 = 1 /\ dstack st4 0 = x /\ dstack st4 1 = id /\
                memory st4 = memory st2 /\ here st4 = h /\ last st4 = h /\ r st4 = 0 /\
                rstack st4 = rstack st2 /\ serial_out st4 = serial_out st2).
  { cbn [st4 st3 p s dstack memory here last r rstack serial_out set_dstack set_s set_p].
    unfold upd. rewrite Hs2, Hp2. cbn [Z.add Z.eqb].
    rewrite !i16_small by lia. repeat split; auto; lia. }
  destruct F4 as (Hp4 & Hs4 & Hd40 & Hd41 & Hm4 & Hh4 & Hl4 & Hr4 & Hrs4 & Ho4).
  clearbody st4. clear E4 st3 E3.
  (* eventOp *)
  pose proof (step_dispatch u (error u n) st4 8 (eventOp u (error u n))
    ltac:(unfold MEM_SIZE in *; lia) ltac:(rewrite Hp4, Hm4; apply (Hm 4); lia)
    ltac:(lia) eq_refl) as D.
  destruct (eventOp_ok u n (set_p (p st4 + 1) st4))
    as (st5 & E5 & Ho5 & Hs5 & Hh5 & Hl5 & Hp5 & Hr5 & Hrs5 & Hm5');
    cbn [s dstack here set_p]; rewrite ?Hs4, ?Hh4;
    [unfold DATA_STACK_SIZE; lia | change (1 - 1) with 0; rewrite Hd40; lia | lia
    | unfold MEM_SIZE in *; lia |].
  rewrite <- D in E5.
  rewrite (run_more _ _ _ _ _ E5) by (cbn [p set_p] in Hp5; lia).
  cbn [serial_out dstack s here last p r rstack memory set_p] in Ho5, Hs5, Hh5, Hl5, Hp5, Hr5, Hrs5, Hm5'.
  rewrite Hs4 in Ho5. change (1 - 1) with 0 in Ho5. rewrite Hd40, Hd41, Ho4, Ho2, (u8_small id) in Ho5 by lia.
  (* ret *)
  pose proof (step_ret u (error u n) st5 ltac:(unfold MEM_SIZE in *; lia)
    ltac:(rewrite Hp5, Hp4, Hm5', Hm4; [replace (h + 4 + 1) with (h + 5) by lia; exact Hm5 | lia])
    ltac:(lia)) as E6.
  rewrite (run_stop _ _ _ _ _ E6) by (cbn [p set_p]; rewrite Hr5, Hr4, Hrs5, Hrs4, Hrs2; lia).
  eexists. split; [reflexivity|].
  cbn [serial_out s here last p r set_p set_r]. rewrite Hr5, Hr4, Hrs5, Hrs4, Hrs2.
  repeat split; try lia; congruence.
Qed.

(** * The theorems at concrete states *)

(** side conditions of a concrete instance, evaluated *)
Ltac side :=
  solve [ reflexivity
        | unfold dict_inv, MEM_SIZE, DATA_STACK_SIZE, RETURN_STACK_SIZE, VM_EVENT_ID,
            VM_ERROR_DATA_STACK_UNDERFLOW, VM_ERROR_OUT_OF_MEMORY; cbn; lia
        | vm_compute; reflexivity
        | vm_compute; congruence ].

(** C1 at reset: [error(DATA_STACK_UNDERFLOW)] sends [2, 2, 0x00, 0xFE] *)
Lemma error_event_bytes_witness :
  exists st', error 0 1 VM_ERROR_DATA_STACK_UNDERFLOW (initial []) = Some (tt, st') /\
    serial_out st' = serial_out (initial []) ++ [2; VM_ERROR_DATA_STACK_UNDERFLOW; 0; VM_EVENT_ID].
Proof.
  refine (error_event_bytes 0 0 VM_ERROR_DATA_STACK_UNDERFLOW (initial []) _ _ _ _); side.
Defined.

(** C2 on the code [0x82 0x05 0x00] (tail call) and [0x82 0x05 0x07] *)
Lemma step_call_witness :
  vm_step 0 0 (initial [130; 5; 0]) =
    Some (tt, set_p (Z.lor (Z.shiftl (Z.land 130 127) 8) 5) (initial [130; 5; 0])) /\
  vm_step 0 0 (initial [130; 5; 7]) =
    Some (tt, set_p (Z.lor (Z.shiftl (Z.land 130 127) 8) 5)
                (set_rstack (upd (rstack (initial [130; 5; 7])) (r (initial [130; 5; 7]) + 1)
                                 (p (initial [130; 5; 7]) + 2))
                   (set_r (r (initial [130; 5; 7]) + 1) (initial [130; 5; 7])))).
Proof.
  split.
  - refine (proj1 (step_call 0 0 (initial [130; 5; 0]) 130 5 0 _ _ _ _ _ _ _) _); side.
  - refine (proj2 (step_call 0 0 (initial [130; 5; 7]) 130 5 7 _ _ _ _ _ _ _) _ _); side.
Defined.

(** C3 at reset: a load at 5 and a store at 600 *)
Lemma memory_bounds_witness :
  memget 0 0 5 (initial [1; 2; 3; 4; 5; 6]) =
    Some (memory (initial [1; 2; 3; 4; 5; 6]) 5, initial [1; 2; 3; 4; 5; 6]) /\
  exists st', error 0 1 VM_ERROR_OUT_OF_MEMORY (initial []) = Some (tt, st') /\
    memset 0 1 600 7 (initial []) = Some (tt, st') /\
    (forall x, x < here (initial []) \/ here (initial []) + 3 <= x ->
       memory st' x = memory (initial []) x).
Proof.
  split.
  - refine (proj1 (memory_bounds 0 0 (initial [1; 2; 3; 4; 5; 6]) _ _ _) 5 _); side.
  - refine (proj2 (proj2 (proj2 (memory_bounds 0 0 (initial []) _ _ _))) 600 7 _); side.
Defined.

(** C4: a push onto four cells *)
Lemma push_full_stack_witness :
  push 0 0 9 (set_s 3 (initial [])) =
  Some (tt, set_dstack (upd (dstack (set_s 3 (initial []))) DATA_STACK_SIZE (i16 9))
              (set_s DATA_STACK_SIZE (set_s 3 (initial [])))).
Proof.
  refine (push_full_stack 0 0 9 (set_s 3 (initial [])) _); side.
Defined.

(** C5: the operand 0xFF of [{1, 0xFF}] is pushed as 255 *)
Lemma lit8_pushes_unsigned_witness :
  exists st', vm_lit8 0 0 (set_p 1 (initial [1; 255])) = Some (tt, st') /\
    s st' = s (set_p 1 (initial [1; 255])) + 1 /\ dstack st' (s st') = 255 /\
    p st' = p (set_p 1 (initial [1; 255])) + 1 /\
    serial_out st' = serial_out (set_p 1 (initial [1; 255])).
Proof.
  refine (lit8_pushes_unsigned 0 0 (set_p 1 (initial [1; 255])) 255 _ _ _ _); side.
Defined.

(** C6: the definition frame [3; 1 5 0] at reset *)
Lemma definition_intake_witness :
  exists st', vm_frame_intake 0 0 0 3 [1; 5; 0] (initial []) =
      Some (skipn (Z.to_nat 3) [1; 5; 0], st') /\
    here st' = here (initial []) + 3 /\ last st' = here st' /\
    (forall j, 0 <= j < 3 -> memory st' (here (initial []) + j) = u8 (nth (Z.to_nat j) [1; 5; 0] 0)) /\
    (forall x, x < here (initial []) \/ here (initial []) + 3 <= x ->
       memory st' x = memory (initial []) x) /\
    s st' = s (initial []) /\ serial_out st' = serial_out (initial []).
Proof.
  refine (definition_intake 0 0 0 3 [1; 5; 0] (initial []) _ _ _ _); side.
Defined.



(** C9: [eventBody8] and [eventBody16] at reset with one cell on the stack *)
Lemma body_before_header_witness :
  let st := set_dstack (fun _ => 9) (set_s 0 (initial [])) in
  exists st', eventBody16 0 1 st = Some (tt, st') /\
    memory st' (here st + 3) = u8 (dstack st (s st)) /\
    eventBuffer st' = here st + 4 /\
    (forall x, x < here st \/ here st + 4 <= x -> memory st' x = memory st x).
Proof.
  intros st.
  refine (proj1 (proj2 (body_before_header 0 0 st _ _ _ _))); side.
Defined.

(** C10: [drop] then [pop] on the empty stack *)
Lemma drop_unchecked_witness :
  (drop ;; pop 0 1) (initial []) =
  (error 0 1 VM_ERROR_DATA_STACK_UNDERFLOW ;; mret 0)
    (set_s (s (initial []) - 1) (initial [])).
Proof.
  refine (proj2 (proj2 (drop_unchecked 0 1)) (initial []) _); side.
Defined.

(** X1: [div] of 300 by 7 *)
Lemma alu_arith_witness :
  let st := set_dstack (fun i => if i =? 0 then 300 else 7) (set_s 1 (initial [16])) in
  replaces_top (vm_step 0 0) st (-1) (i16 (Z.quot 300 7)).
Proof.
  intros st.
  refine (proj1 (proj2 (proj2 (proj2 (alu_arith 0 0 st 300 7 _ _ _ _)))) _ _); side.
Defined.

(** X2: [shift] of 3 by -2 (left by two) *)
Lemma alu_bitwise_witness :
  let st := set_dstack (fun i => if i =? 0 then 3 else -2) (set_s 1 (initial [21])) in
  replaces_top (vm_step 0 0) st (-1) (i16 (Z.shiftl 3 (- -2))).
Proof.
  intros st.
  refine (proj1 (proj2 (proj2 (proj2 (alu_bitwise 0 0 st 3 (-2) _ _ _ _)))) _ _); side.
Defined.

(** X3: [gt] of 5 and 3 *)
Lemma alu_compare_witness :
  let st := set_dstack (fun i => if i =? 0 then 5 else 3) (set_s 1 (initial [24])) in
  replaces_top (vm_step 0 0) st (-1) (if 5 >? 3 then -1 else 0).
Proof.
  intros st.
  refine (proj1 (proj2 (proj2 (alu_compare 0 0 st 5 3 _ _ _ _))) _); side.
Defined.

(** X4: [neg] of 5 *)
Lemma alu_unary_witness :
  let st := set_dstack (fun _ => 5) (set_s 0 (initial [29])) in
  replaces_top (vm_step 0 0) st 0 (i16 (- 5)).
Proof.
  intros st.
  refine (proj1 (proj2 (alu_unary 0 0 st 5 _ _ _)) _); side.
Defined.

(** X5: 1000 stored at 10 *)
Lemma store16_mem16_witness :
  let st := set_dstack (fun i => if i =? 1 then 10 else 1000) (set_s 1 (initial [])) in
  exists st', store16 0 (error 0 0) st = Some (tt, st') /\
    s st' = s st - 2 /\
    mem16 (error 0 0) 10 st' = Some (1000, st') /\
    memory st' 10 = u8 (Z.shiftr 1000 8) /\ memory st' (10 + 1) = u8 1000 /\
    (forall x, x <> 10 -> x <> 10 + 1 -> memory st' x = memory st x) /\
    serial_out st' = serial_out st.
Proof.
  intros st. refine (store16_mem16 0 0 st 10 1000 _ _ _ _ _ _); side.
Defined.

(** X6: the operand bytes 0x01 0x2C *)
Lemma lit16_big_endian_witness :
  let st := set_p 1 (initial [2; 1; 44]) in
  exists st', lit16 (error 0 0) st = Some (tt, st') /\
    s st' = s st + 1 /\ dstack st' (s st') = i16 (256 * 1 + 44) /\ p st' = p st + 2 /\
    serial_out st' = serial_out st.
Proof.
  intros st. refine (lit16_big_endian 0 0 st 1 44 _ _ _ _ _ _ _); side.
Defined.

(** X7: [dup] of one cell *)
Lemma dup_copies_top_witness :
  let st := set_dstack (fun _ => 9) (set_s 0 (initial [])) in
  exists st', dup (error 0 0) st = Some (tt, st') /\
    s st' = s st + 1 /\ dstack st' (s st') = i16 (dstack st (s st)) /\
    (forall i, i <> s st' -> dstack st' i = dstack st i) /\ serial_out st' = serial_out st.
Proof.
  intros st. refine (dup_copies_top 0 0 st _); side.
Defined.

(** X8: [swap] of two cells *)
Lemma swap_exchanges_witness :
  let st := set_dstack (fun i => i + 1) (set_s 1 (initial [])) in
  exists st', swap st = Some (tt, st') /\ s st' = s st /\
    dstack st' (s st) = dstack st (s st - 1) /\ dstack st' (s st - 1) = dstack st (s st) /\
    (forall i, i <> s st -> i <> s st - 1 -> dstack st' i = dstack st i) /\
    (exists st'', swap st' = Some (tt, st'') /\ s st'' = s st /\
       forall i, dstack st'' i = dstack st i).
Proof.
  intros st. refine (swap_exchanges st _); side.
Defined.

(** X9: [pick] of 1 on three cells *)
Lemma pick_copies_witness :
  let st := set_dstack (fun i => if i =? 2 then 1 else 10 * i) (set_s 2 (initial [])) in
  exists st', pick 0 (error 0 0) st = Some (tt, st') /\ s st' = s st /\
    dstack st' (s st) = i16 (dstack st (s st - 1 - 1)) /\
    (forall i, i <> s st -> dstack st' i = dstack st i) /\ serial_out st' = serial_out st.
Proof.
  intros st. refine (pick_copies 0 0 st 1 _ _ _); side.
Defined.

(** X10: [roll] of 2 on four cells *)
Lemma roll_rotates_witness :
  let st := set_dstack (fun i => if i =? 3 then 2 else 10 * i) (set_s 3 (initial [])) in
  exists st', roll 0 (error 0 0) st = Some (tt, st') /\ s st' = s st - 1 /\
    dstack st' (s st') = dstack st (s st' - 2) /\
    (forall j, 0 <= j < 2 -> dstack st' (s st' - 2 + j) = dstack st (s st' - 2 + j + 1)) /\
    (forall i, i < s st' - 2 \/ s st' < i -> dstack st' i = dstack st i) /\
    serial_out st' = serial_out st.
Proof.
  intros st. refine (roll_rotates 0 0 st 2 _ _ _); side.
Defined.

(** X11: [pushr popr] on one cell *)
Lemma pushr_popr_roundtrip_witness :
  let st := set_dstack (fun _ => 5) (set_s 0 (initial [])) in
  exists st', (pushr 0 (error 0 0) ;; popr 0 (error 0 0)) st = Some (tt, st') /\
    s st' = s st /\ r st' = r st /\ dstack st' (s st) = i16 (dstack st (s st)) /\
    (forall i, i <> s st -> dstack st' i = dstack st i) /\ serial_out st' = serial_out st.
Proof.
  intros st. refine (pushr_popr_roundtrip 0 0 st _ _); side.
Defined.

(** X12: a quotation of three bytes *)
Lemma quote_skips_witness :
  let st := set_p 1 (initial [3; 3; 7; 7; 7]) in
  exists st', quote (error 0 0) st = Some (tt, st') /\
    s st' = s st + 1 /\ dstack st' (s st') = p st + 1 /\ p st' = p st + 1 + 3 /\
    r st' = r st /\ serial_out st' = serial_out st.
Proof.
  intros st. refine (quote_skips 0 0 st 3 _ _ _ _); side.
Defined.

(** X13: [choice] on a false condition *)
Lemma choice_calls_witness :
  let st := set_dstack (fun i => i) (set_s 2 (set_p 7 (initial []))) in
  exists st', choice 0 (error 0 0) st = Some (tt, st') /\
    s st' = s st - 3 /\ r st' = r st + 1 /\ rstack st' (r st') = i16 (p st) /\
    p st' = (if dstack st (s st - 2) =? 0 then dstack st (s st) else dstack st (s st - 1)) /\
    serial_out st' = serial_out st.
Proof.
  intros st. refine (choice_calls 0 0 st _ _); side.
Defined.

(** X14: [chooseIf] on a true condition *)
Lemma chooseIf_branches_witness :
  let st := set_dstack (fun i => i + 1) (set_s 1 (set_p 7 (initial []))) in
  exists st', chooseIf 0 (error 0 0) st = Some (tt, st') /\
    s st' = s st - 2 /\ serial_out st' = serial_out st /\
    (if dstack st (s st - 1) =? 0
     then p st' = p st /\ r st' = r st
     else p st' = dstack st (s st) /\ r st' = r st + 1 /\ rstack st' (r st') = i16 (p st)).
Proof.
  intros st. refine (chooseIf_branches 0 0 st _ _); side.
Defined.

(** X15: [next] with the counter 3 and the operand 2 *)
Lemma next_counts_witness :
  let st := set_rstack (fun _ => 3) (set_r 0 (set_p 4 (initial [0; 0; 0; 0; 2]))) in
  exists st', next 0 (error 0 0) st = Some (tt, st') /\ serial_out st' = serial_out st /\
    (i16 (3 - 1) > 0 ->
       r st' = r st /\ rstack st' (r st) = i16 (3 - 1) /\ p st' = i16 (p st + 1 - (2 + 2))) /\
    (i16 (3 - 1) <= 0 -> r st' = r st - 1 /\ p st' = p st + 1).
Proof.
  intros st. refine (next_counts 0 0 st 3 2 _ _ _ _ _); side.
Defined.

(** X16: [eventOp] of the id 7 and the value 300 *)
Lemma eventOp_sends_witness :
  let st := set_dstack (fun i => if i =? 0 then 300 else 7) (set_s 1 (initial [])) in
  exists st', eventOp 0 (error 0 0) st = Some (tt, st') /\
    serial_out st' = serial_out st ++ spec_scalar_event (u8 (dstack st (s st))) (dstack st (s st - 1)) /\
    s st' = s st - 2 /\ here st' = here st /\ last st' = last st /\ p st' = p st /\
    r st' = r st /\ rstack st' = rstack st /\
    (forall x, x < here st \/ here st + 3 <= x -> memory st' x = memory st x).
Proof.
  intros st. refine (eventOp_sends 0 0 st _ _ _ _); side.
Defined.

(** X17: a packed event of three cells *)
Lemma packed_event_witness :
  let st := set_dstack (fun i => 100 * i + 1) (set_s 2 (set_here 20 (initial []))) in
  exists st', (eventHeader_ 0 (error 0 0) ;; eventBody8_ 0 (error 0 0) ;;
               eventBody16_ 0 (error 0 0) ;; eventFooter_ (error 0 0)) st = Some (tt, st') /\
    serial_out st' = serial_out st ++
      [3; u8 (dstack st (s st)); u8 (dstack st (s st - 1));
       u8 (Z.shiftr (dstack st (s st - 2)) 8); u8 (dstack st (s st - 2))] /\
    s st' = s st - 3.
Proof.
  intros st. refine (proj1 (proj2 (packed_event 0 0 st _ _)) _); side.
Defined.

(** X19: the frame [0x85; 1 200 1 9 8] at reset *)
Lemma immediate_event_frame_witness :
  exists st', vm_frame_intake 0 0 4 133 ([1; 200; 1; 9; 8] ++ []) (initial []) = Some ([], st') /\
    serial_out st' = serial_out (initial []) ++ spec_scalar_event 9 200 /\
    s st' = -1 /\ here st' = here (initial []) /\ last st' = last (initial []) /\
    p st' = -1 /\ r st' = -1.
Proof.
  refine (immediate_event_frame 0 0 4 (initial []) 200 9 [] _ _ _ _ _ _ _); side.
Defined.
